(** * mininet-wifi, sixLoWPAN: radio-device provisioning and interface handles

    A shallow embedding of [mininet/sixLoWPAN/module.py] (the class [module],
    the device allocator) and [mininet/sixLoWPAN/link.py] (the classes
    [IntfSixLoWPAN] and [sixLoWPANLink]), followed by the properties of the
    specification that concern them.

    Python values are a small inductive universe, exceptions are data, and
    every method is a function that threads the mutated objects, the host
    and the log of commands it issued. *)

From Stdlib Require Import Ascii String DecimalString DecimalNat.
From stdpp Require Import gmap strings list sorting.

Set Warnings "-register-all".

Local Open Scope Z_scope.

(** ** Python values, exceptions and results *)

Module Py.

(** The values that reach the modelled code as parameters. *)
Inductive PyVal :=
| VNone
| VBool (b : bool)
| VInt (z : Z)
| VStr (s : string)
| VList (l : list PyVal)
| VTuple (l : list PyVal)
| VDict (d : list (string * PyVal)).

(** The exceptions the modelled code can raise. [NoPrefixLength v] is
    [Exception('No prefix length set for IP address %s' % (v,))];
    [CalledProcessError] is what [subprocess.check_output] raises. *)
Inductive exn :=
| TypeError
| AttributeError
| KeyError
| IndexError
| ValueError
| UnboundLocalError
| CalledProcessError
| NoPrefixLength (ipstr : PyVal).

Inductive Res (A : Type) :=
| Return (a : A)
| Raise (e : exn).
Global Arguments Return {A} a.
Global Arguments Raise {A} e.

(** Truth value of an object, as [if v:] tests it. *)
Definition truthy (v : PyVal) : bool :=
  match v with
  | VNone => false
  | VBool b => b
  | VInt z => negb (z =? 0)
  | VStr s => negb (String.eqb s "")
  | VList l | VTuple l => match l with [] => false | _ => true end
  | VDict d => match d with [] => false | _ => true end
  end.

(** [s.split(sep)] for a one-character separator: [k] occurrences of the
    separator give [k + 1] pieces, so the result is never empty. *)
Fixpoint split (sep : ascii) (s : string) : list string :=
  match s with
  | EmptyString => [EmptyString]
  | String c s' =>
      if Ascii.eqb c sep then EmptyString :: split sep s'
      else match split sep s' with
           | [] => [String c EmptyString]
           | piece :: pieces => String c piece :: pieces
           end
  end.

(** ["\n"] *)
Definition newline : ascii := Ascii.ascii_of_nat 10.

(** Text as the interpreter distinguishes it: the [bytes] that
    [subprocess.check_output] returns, and [str]. *)
Inductive Text :=
| Bytes (b : string)
| Str (s : string).

(** A step that uses the result of the step before, when there is one. *)
Definition and_then {A B} (r : Res A) (f : A → Res B) : Res B :=
  match r with
  | Return a => f a
  | Raise e => Raise e
  end.

(** [subprocess.check_output(cmd, shell=True)], given what the command
    printed, or [None] when it exited with a status other than 0. *)
Definition check_output (printed : option string) : Res Text :=
  match printed with
  | Some b => Return (Bytes b)
  | None => Raise CalledProcessError
  end.

(** [t.decode('utf-8')], on output that is ASCII: a method of [bytes]
    only. *)
Definition decode (t : Text) : Res Text :=
  match t with
  | Bytes b => Return (Str b)
  | Str _ => Raise AttributeError
  end.

(** [t >= n] with [n] an [int]: text and numbers are not ordered. *)
Definition at_least (t : Text) (n : Z) : Res bool := Raise TypeError.

(** [t.split(sep)] with [sep] a one-character [str]: on [bytes] the
    separator has the wrong type. *)
Definition split_str (sep : ascii) (t : Text) : Res (list string) :=
  match t with
  | Str s => Return (split sep s)
  | Bytes _ => Raise TypeError
  end.

(** [l.pop()] on a list known to be non-empty leaves [removelast l]. *)
Definition pop_last {A} (l : list A) : list A := removelast l.

(** [sub in s] for a one-character [sub]. *)
Fixpoint contains_char (c : ascii) (s : string) : bool :=
  match s with
  | EmptyString => false
  | String c' s' => if Ascii.eqb c' c then true else contains_char c s'
  end.

(** [sub in s] for strings: [sub] occurs as a substring of [s]. *)
Fixpoint contains (sub s : string) : bool :=
  if String.prefix sub s then true
  else match s with
       | EmptyString => false
       | String _ s' => contains sub s'
       end.

(** [sorted(l)] and [l.sort(key=...)] are stable: elements that compare
    equal keep their relative order, which determines the result from the
    input and the order alone.  Insertion from the right, placing the new
    element before the first one it is [le] to, is such a sort. *)
Fixpoint insert_by {A} (le : A → A → bool) (x : A) (l : list A) : list A :=
  match l with
  | [] => [x]
  | y :: l' => if le x y then x :: l else y :: insert_by le x l'
  end.

Definition sorted {A} (le : A → A → bool) (l : list A) : list A :=
  foldr (insert_by le) [] l.

(** A decimal digit, ["0"] to ["9"]. *)
Definition is_digit (c : ascii) : bool :=
  (48 <=? nat_of_ascii c)%nat && (nat_of_ascii c <=? 57)%nat.

Fixpoint all_digits (s : string) : bool :=
  match s with
  | EmptyString => true
  | String c s' => is_digit c && all_digits s'
  end.

(** The text of some lines, each ended by a newline. *)
Definition lines (l : list string) : string :=
  foldr (λ x rest, x +:+ String newline rest) EmptyString l.

(** Comparison of two [str] objects: lexicographic on the characters. *)
Definition str_le (a b : string) : bool := String.leb a b.

(** Comparison through [key=len]. *)
Definition len_le (a b : string) : bool :=
  (String.length a <=? String.length b)%nat.

End Py.

Import Py.

(** ** Nodes *)

(** [isinstance(node, Station)], [isinstance(node, Car)], or neither. *)
Inductive NodeKind := Station | Car | OtherNode.

(** Modelled from the spec: the node class ([mininet.wifi.node]) is not
    under [src/].  A node has an identity (its name), an isolation-context
    identifier ([pid]), the ordered list of requested radio-interface names
    ([params['wlan']]), its addresses ([params['ip']]), the other entries of
    its parameter mapping, and the array [phyID] of allocated physical-device
    indices.  To these comes the attribute [ifb], a list that the allocator
    resets.  A list of nodes stands for a list of distinct node objects. *)
Record Node := {
  nd_name : string;
  nd_pid : Z;
  nd_kind : NodeKind;
  nd_wlan : list string;
  nd_ip : list string;
  nd_params : gmap string PyVal;
  nd_phyID : list Z;
  nd_ifb : list string
}.

Definition set_phyID (nd : Node) (ids : list Z) : Node :=
  {| nd_name := nd_name nd; nd_pid := nd_pid nd; nd_kind := nd_kind nd;
     nd_wlan := nd_wlan nd; nd_ip := nd_ip nd; nd_params := nd_params nd;
     nd_phyID := ids; nd_ifb := nd_ifb nd |}.

Definition set_ifb (nd : Node) (ifb : list string) : Node :=
  {| nd_name := nd_name nd; nd_pid := nd_pid nd; nd_kind := nd_kind nd;
     nd_wlan := nd_wlan nd; nd_ip := nd_ip nd; nd_params := nd_params nd;
     nd_phyID := nd_phyID nd; nd_ifb := ifb |}.

(** ** module.py: the device allocator (class [module]) *)

Module WifiModule.

(** What one run does, in order: the stores into [node.phyID], the external
    commands, and the pops off the free pool. *)
Inductive Event :=
| StorePhyID (node : string) (slot : nat) (id : Z)
| SetNetns (phy : string) (pid : Z)
| LinkDown (node dev : string)
| LinkName (node dev newname : string)
| Pop (dev : string).

(** The host as the allocator sees it: what the three commands run through
    [subprocess.check_output] print, and the effect of a command.  A listing
    is [None] when its command exits with a status other than 0, so that
    [check_output] raises. *)
Class Host := {
  World : Type;
  hwsim_groups : World → option string;
  iwpan_interfaces : World → option string;
  iwpan_phy_of : World → string → option string;
  run : World → Event → World
}.

(** The class attributes of [module] that the modelled methods use. *)
Record Registry := {
  wlans : list string;
  wlan_list : list string;
  prefix : string;
  phyID : Z
}.

Section Allocator.
Context `{Host}.

(** The registry, the host, and the log of the run so far. *)
Record State := {
  cls : Registry;
  world : World;
  trace : list Event
}.

Definition emit (ev : Event) (s : State) : State :=
  {| cls := cls s; world := run (world s) ev; trace := trace s ++ [ev] |}.

Definition note (ev : Event) (s : State) : State :=
  {| cls := cls s; world := world s; trace := trace s ++ [ev] |}.

Definition with_cls (c : Registry) (s : State) : State :=
  {| cls := c; world := world s; trace := trace s |}.

(** ["mn%02ds" % num]: the counter in decimal, padded with zeros to a width
    of two. *)
Definition fmt_02d (num : nat) : string :=
  let digits := NilEmpty.string_of_uint (Nat.to_uint num) in
  if (String.length digits <? 2)%nat then "0" +:+ digits else digits.

Definition prefix_of (num : nat) : string := "mn" +:+ fmt_02d num +:+ "s".

(** The inner [for phy in phys] of [__create_hwsim_mgmt_devices]: [true]
    when it leaves through [break]. *)
Fixpoint collides (pre : string) (phys : list string) : bool :=
  match phys with
  | [] => false
  | phy :: rest => if String.prefix pre phy then true else collides pre rest
  end.

(** The [while not numokay] loop, [fuel] bounding its iterations; it gives
    the final [num] and [cls.prefix]. *)
Fixpoint prefix_loop (fuel : nat) (phys : list string) (num : nat)
  : option (nat * string) :=
  match fuel with
  | O => None
  | S fuel' =>
      let pre := prefix_of num in
      if collides pre phys then prefix_loop fuel' phys (S num)
      else Some (num, pre)
  end.

(** [__create_hwsim_mgmt_devices]; [None] is fuel running out. *)
Definition create_hwsim_mgmt_devices (fuel : nat) (s : State)
  : option (Res unit * State) :=
  match and_then (and_then (check_output (hwsim_groups (world s))) decode)
          (split_str newline) with
  | Raise e => Some (Raise e, s)
  | Return phys =>
      match prefix_loop fuel phys 0 with
      | None => None
      | Some (_, pre) =>
          Some (Return (),
                with_cls {| wlans := wlans (cls s);
                            wlan_list := wlan_list (cls s);
                            prefix := pre; phyID := phyID (cls s) |} s)
      end
  end.

(** [get_virtual_wlan]: the output of [check_output] is split as it
    is. *)
Definition get_virtual_wlan (s : State) : Res (list string) * State :=
  let c := cls s in
  let s1 := with_cls {| wlans := []; wlan_list := wlan_list c;
                        prefix := prefix c; phyID := phyID c |} s in
  match and_then (check_output (iwpan_interfaces (world s)))
          (split_str newline) with
  | Raise e => (Raise e, s1)
  | Return pieces =>
      let ws := pop_last pieces in
      let pool := sorted len_le (sorted str_le ws) in
      (Return pool,
       with_cls {| wlans := ws; wlan_list := pool;
                   prefix := prefix c; phyID := phyID c |} s)
  end.

(** [getPhy]: the output of [check_output] is split as it is. *)
Definition getPhy (w : World) (wlan : string) : Res string :=
  match and_then (check_output (iwpan_phy_of w wlan)) (split_str newline) with
  | Raise e => Raise e
  | Return pieces =>
      match pop_last pieces with
      | phy :: _ => Return phy
      | [] => Raise IndexError
      end
  end.

(** The [phys] argument of [assign_iface]: [start] passes the very list
    object that [get_virtual_wlan] stored in [cls.wlan_list], so there
    [phys] and the pool are one object; any other caller passes a list of
    its own. *)
Inductive PhysArg :=
| PhysPool
| PhysList (l : list string).

Definition phys_now (phys : PhysArg) (c : Registry) : list string :=
  match phys with
  | PhysPool => wlan_list c
  | PhysList l => l
  end.

(** The guard of the node loop. *)
Definition isolated (nd : Node) : bool :=
  match nd_kind nd with
  | Station | Car => true
  | OtherNode => bool_decide (is_Some (nd_params nd !! "inNamespace"))
  end.

(** One pass through the body of [for wlan in range(...)]. *)
Definition assign_slot (phys : PhysArg) (wlan : nat) (ns : Node * State)
  : Res unit * (Node * State) :=
  let '(nd, s) := ns in
  let c := cls s in
  if bool_decide (wlan < length (nd_phyID nd))%nat then
    let nd1 := set_phyID nd (<[wlan := phyID c]> (nd_phyID nd)) in
    let s1 := note (StorePhyID (nd_name nd) wlan (phyID c)) s in
    let c2 := {| wlans := wlans c; wlan_list := wlan_list c;
                 prefix := prefix c; phyID := phyID c + 1 |} in
    let s2 := with_cls c2 s1 in
    match phys_now phys c2 with
    | [] => (Raise IndexError, (nd1, s2))
    | phys0 :: _ =>
        match getPhy (world s2) phys0 with
        | Raise e => (Raise e, (nd1, s2))
        | Return phy =>
            let s3 := emit (SetNetns phy (nd_pid nd)) s2 in
            match wlan_list c2 with
            | [] => (Raise IndexError, (nd1, s3))
            | dev :: rest =>
                let s4 := emit (LinkDown (nd_name nd) dev) s3 in
                match nd_wlan nd !! wlan with
                | None => (Raise IndexError, (nd1, s4))
                | Some newname =>
                    let s5 := emit (LinkName (nd_name nd) dev newname) s4 in
                    let c6 := {| wlans := wlans c2; wlan_list := rest;
                                 prefix := prefix c2; phyID := phyID c2 |} in
                    (Return (), (nd1, note (Pop dev) (with_cls c6 s5)))
                end
            end
        end
    end
  else (Raise IndexError, (nd, s)).

(** A [for] loop whose body may raise. *)
Fixpoint for_each {A S} (body : A → S → Res unit * S) (l : list A) (s : S)
  : Res unit * S :=
  match l with
  | [] => (Return (), s)
  | a :: l' =>
      match body a s with
      | (Return _, s1) => for_each body l' s1
      | (Raise e, s1) => (Raise e, s1)
      end
  end.

(** The body of [for node in nodes]. *)
Definition assign_node (phys : PhysArg) (nd : Node) (s : State)
  : Res unit * (Node * State) :=
  if isolated nd then
    for_each (assign_slot phys) (seq 0 (length (nd_wlan nd)))
      (set_ifb nd [], s)
  else (Return (), (nd, s)).

Fixpoint assign_nodes (phys : PhysArg) (nodes : list Node) (s : State)
  : Res unit * (list Node * State) :=
  match nodes with
  | [] => (Return (), ([], s))
  | nd :: rest =>
      match assign_node phys nd s with
      | (Return _, (nd1, s1)) =>
          let '(r, (rest1, s2)) := assign_nodes phys rest s1 in
          (r, (nd1 :: rest1, s2))
      | (Raise e, (nd1, s1)) => (Raise e, (nd1 :: rest, s1))
      end
  end.

(** How a call of [assign_iface] ends: it returns, or the [except] clause
    runs [exit(1)]. *)
Inductive Outcome :=
| Finished
| Exit (code : Z).

(** [assign_iface], on a fresh log. *)
Definition assign_iface (nodes : list Node) (phys : PhysArg)
  (c : Registry) (w : World) : Outcome * (list Node * State) :=
  match assign_nodes phys nodes {| cls := c; world := w; trace := [] |} with
  | (Return _, r) => (Finished, r)
  | (Raise _, r) => (Exit 1, r)
  end.

End Allocator.

(** *** What a run did, read off its log *)

(** The devices popped off the free pool, in order. *)
Definition pops (tr : list Event) : list string :=
  omap (λ ev, match ev with Pop dev => Some dev | _ => None end) tr.

(** The renamings: node, device, new name. *)
Definition renames (tr : list Event) : list (string * string * string) :=
  omap (λ ev, match ev with
              | LinkName nd dev newname => Some (nd, dev, newname)
              | _ => None
              end) tr.

Definition assigned_devices (tr : list Event) : list string :=
  (λ r, r.1.2) <$> renames tr.

(** The stores into [node.phyID]: node, slot, id. *)
Definition stores (tr : list Event) : list (string * nat * Z) :=
  omap (λ ev, match ev with
              | StorePhyID nd slot id => Some (nd, slot, id)
              | _ => None
              end) tr.

(** The radio slots a node requests: node, slot, interface name. *)
Definition requested (nd : Node) : list (string * nat * string) :=
  imap (λ slot newname, (nd_name nd, slot, newname)) (nd_wlan nd).


(** The slots the node loop serves: those of the nodes that pass its
    guard. *)
Definition node_slots (nd : Node) : list (string * nat * string) :=
  if isolated nd then requested nd else [].

Definition served_slots (nodes : list Node) : list (string * nat * string) :=
  nodes ≫= node_slots.

Section Runs.
Context `{Host}.

(** From [s] to [s'] the pool lost its head devices to the pops, and the
    counter advanced by one per store, each store taking its value. *)
Definition run_inv (s s' : State) : Prop :=
  ∃ evs,
    trace s' = trace s ++ evs
    ∧ wlan_list (cls s) = pops evs ++ wlan_list (cls s')
    ∧ (stores evs).*2 = seqZ (phyID (cls s)) (Z.of_nat (length (stores evs)))
    ∧ phyID (cls s') = phyID (cls s) + Z.of_nat (length (stores evs)).


(** From [s] to [s'] the devices renamed are the devices popped, in that
    order. *)
Definition paired (s s' : State) : Prop :=
  ∃ evs, trace s' = trace s ++ evs ∧ assigned_devices evs = pops evs.

(** [nd'] is [nd] but for [phyID], which has as many entries as before,
    and for [ifb]. *)
Definition same_but_ids_and_ifb (nd nd' : Node) : Prop :=
  nd_name nd' = nd_name nd ∧ nd_pid nd' = nd_pid nd
  ∧ nd_kind nd' = nd_kind nd ∧ nd_wlan nd' = nd_wlan nd
  ∧ nd_ip nd' = nd_ip nd ∧ nd_params nd' = nd_params nd
  ∧ length (nd_phyID nd') = length (nd_phyID nd).

End Runs.

(** *** Loading the module and starting: [load_module] and [start] *)

(** The commands [load_module] and [start] hand to [os.system]. *)
Inductive Shell :=
| Modprobe (numlbs : Z)
| Insmod (path : string) (numlbs : Z)
| PkillHostapd.

(** The kernel side of the host: the exit status [os.system] returns for a
    command, the host after it, and what the count of [hostapd] processes
    prints ([None] when that command exits with a status other than 0). *)
Class Kernel `{Host} := {
  os_system : World → Shell → Z;
  after : World → Shell → World;
  hostapd_count : World → option string
}.

Section Loading.
Context `{Kernel}.

(** The allocator state with the two flags of the class and the log of
    [os.system] calls. *)
Record Loader := {
  state : State;
  externally_managed : bool;
  devices_created_dynamically : bool;
  shell : list Shell
}.

Definition sh (c : Shell) (l : Loader) : Z * Loader :=
  (os_system (world (state l)) c,
   {| state := {| cls := cls (state l); world := after (world (state l)) c;
                  trace := trace (state l) |};
      externally_managed := externally_managed l;
      devices_created_dynamically := devices_created_dynamically l;
      shell := shell l ++ [c] |}).

Definition with_state (s : State) (l : Loader) : Loader :=
  {| state := s; externally_managed := externally_managed l;
     devices_created_dynamically := devices_created_dynamically l;
     shell := shell l |}.

(** The call of [__create_hwsim_mgmt_devices] from [load_module]. *)
Definition create_in (fuel : nat) (l : Loader) : option (Res unit * Loader) :=
  match create_hwsim_mgmt_devices fuel (state l) with
  | None => None
  | Some (r, s) => Some (r, with_state s l)
  end.

(** [load_module]; [alternativeModule] is [""] when the caller passes
    none. *)
Definition load_module (fuel : nat) (n_radios : Z) (alternativeModule : string)
  (l : Loader) : option (Res unit * Loader) :=
  if negb (externally_managed l) then
    let '(output_, l1) :=
      if String.eqb alternativeModule ""
      then sh (Modprobe n_radios) l
      else sh (Insmod alternativeModule 0) l in
    if output_ =? 0 then create_in fuel l1
    else
      let n_radios := if n_radios =? 0 then 1 else n_radios in
      let '(_, l2) :=
        if String.eqb alternativeModule ""
        then sh (Modprobe n_radios) l1
        else sh (Insmod alternativeModule n_radios) l1 in
      Some (Return (), l2)
  else
    create_in fuel
      {| state := state l; externally_managed := externally_managed l;
         devices_created_dynamically := true; shell := shell l |}.

(** How a call of [start] ends: [assign_iface] was reached and ended so,
    or an exception of an earlier step came out. *)
Inductive Started :=
| Assigned (how : Outcome) (nodes : list Node)
| Failed (e : exn).

(** The state [start] begins in: fresh logs, the flag as the class has
    it. *)
Definition fresh (managed : bool) (c : Registry) (w : World) : Loader :=
  {| state := {| cls := c; world := w; trace := [] |};
     externally_managed := managed;
     devices_created_dynamically := false; shell := [] |}.

(** The [try] block that opens [start]: whatever is raised inside it is
    dropped. *)
Definition kill_hostapd (l : Loader) : Loader :=
  match and_then (check_output (hostapd_count (world (state l))))
          (λ h, at_least h 2) with
  | Return true => (sh PkillHostapd l).2
  | _ => l
  end.

(** [start]. *)
Definition start (fuel : nat) (nodes : list Node) (n_radios : Z)
  (alternativeModule : string) (managed : bool) (c : Registry) (w : World)
  : option (Started * Loader) :=
  match load_module fuel n_radios alternativeModule
          (kill_hostapd (fresh managed c w)) with
  | None => None
  | Some (Raise e, l2) => Some (Failed e, l2)
  | Some (Return _, l2) =>
      match get_virtual_wlan (state l2) with
      | (Raise e, s3) => Some (Failed e, with_state s3 l2)
      | (Return phys, s3) =>
          (* [phys] is the list object in [cls.wlan_list] *)
          match assign_nodes PhysPool nodes s3 with
          | (Return _, (nodes', s4)) =>
              Some (Assigned Finished nodes', with_state s4 l2)
          | (Raise _, (nodes', s4)) =>
              Some (Assigned (Exit 1) nodes', with_state s4 l2)
          end
      end
  end.

(** The command of the first load. *)
Definition first_load (n_radios : Z) (alternativeModule : string) : Shell :=
  if String.eqb alternativeModule "" then Modprobe n_radios
  else Insmod alternativeModule 0.

(** The command of the second load, after the first one failed. *)
Definition second_load (n_radios : Z) (alternativeModule : string) : Shell :=
  let n := if n_radios =? 0 then 1 else n_radios in
  if String.eqb alternativeModule "" then Modprobe n
  else Insmod alternativeModule n.

(** [s'] has the interface lists, the counter and the log of [s]. *)
Definition same_pool (s s' : State) : Prop :=
  wlans (cls s') = wlans (cls s) ∧ wlan_list (cls s') = wlan_list (cls s)
  ∧ phyID (cls s') = phyID (cls s) ∧ trace s' = trace s.

End Loading.

(** *** A host and nodes to run on *)

(** A host that lists two device groups and three interfaces, and prints
    phy 0 for every interface. *)
Definition steady_host : Host := {|
  World := unit;
  hwsim_groups := λ _, Some (lines ["mn00s"; "mn01s"]);
  iwpan_interfaces := λ _, Some (lines ["wpan10"; "wpan2"; "wpan0"]);
  iwpan_phy_of := λ _ _, Some (lines ["0"]);
  run := λ w _, w
|}.

(** On it every load succeeds and one [hostapd] process is counted. *)
Definition steady_kernel : @Kernel steady_host := {|
  os_system := λ _ _, 0;
  after := λ w _, w;
  hostapd_count := λ _, Some (lines ["1"])
|}.

(** On it no load succeeds. *)
Definition failing_kernel : @Kernel steady_host := {|
  os_system := λ _ _, 256;
  after := λ w _, w;
  hostapd_count := λ _, None
|}.

(** A host on which the listing of the interfaces fails. *)
Definition bare_host : Host := {|
  World := unit;
  hwsim_groups := λ _, Some "";
  iwpan_interfaces := λ _, None;
  iwpan_phy_of := λ _ _, None;
  run := λ w _, w
|}.

Definition bare_kernel : @Kernel bare_host := {|
  os_system := λ _ _, 0;
  after := λ w _, w;
  hostapd_count := λ _, Some (lines ["3"])
|}.

Definition sensor (name : string) (kind : NodeKind) (wlan : list string) : Node :=
  {| nd_name := name; nd_pid := 4242; nd_kind := kind; nd_wlan := wlan;
     nd_ip := []; nd_params := ∅; nd_phyID := const 0 <$> wlan;
     nd_ifb := ["ifb0"] |}.

Definition registry (pool : list string) (next : Z) : Registry :=
  {| wlans := pool; wlan_list := pool; prefix := ""; phyID := next |}.

End WifiModule.

(** ** link.py: interface handles (class [IntfSixLoWPAN]) *)

Module Link.

(** One argument of a command or of a format string: literal text, a value,
    or ['%s/%s' % (a, b)]. *)
Inductive Arg :=
| Lit (s : string)
| Val (v : PyVal)
| Fmt2 (a b : PyVal).

(** The calls a handle makes on its owning node, in order. *)
Inductive Event :=
| Cmd (node : string) (args : list Arg)
| Pexec (node : string) (args : list Arg)
| AddIntf (node : string) (intf port moveIntfFn : PyVal)
| NewPort (node : string)
| NewWlanPort (node : string).

(** The node's side of those calls: the text [node.cmd] returns, the
    standard output [node.pexec] captures, the port [node.newPort] hands
    out, and the effect of a call on the host. *)
Class Host := {
  World : Type;
  cmd_output : World → string → list Arg → string;
  pexec_output : World → string → list Arg → string;
  new_port : World → string → PyVal;
  run : World → Event → World
}.

(** The attributes of a handle. *)
Record Intf := {
  node : option Node;
  name : PyVal;
  link : PyVal;
  mac : PyVal;
  ip : PyVal;
  prefixLen : PyVal;
  params : gmap string PyVal
}.

(** [_ipMatchRegex = \d+\.\d+\.\d+\.\d+] and
    [_macMatchRegex = ..:..:..:..:..:..] *)

(** The longest run of digits at the head of [s], and what follows it.
    [\d+] is greedy, and giving characters back never helps here: what
    follows it in the pattern is a dot or the end of the pattern. *)
Fixpoint span_digits (s : string) : string * string :=
  match s with
  | EmptyString => (EmptyString, EmptyString)
  | String c s' =>
      if is_digit c then
        let '(ds, rest) := span_digits s' in (String c ds, rest)
      else (EmptyString, s)
  end.

(** [\d+\.] at the head of [s]: the text matched and the rest. *)
Definition digits_dot (s : string) : option (string * string) :=
  match span_digits s with
  | (EmptyString, _) => None
  | (ds, String "." rest) => Some (ds +:+ ".", rest)
  | _ => None
  end.

(** The text [_ipMatchRegex] matches at the head of [s]. *)
Definition match_ip (s : string) : option string :=
  match digits_dot s with
  | None => None
  | Some (a, s1) =>
      match digits_dot s1 with
      | None => None
      | Some (b, s2) =>
          match digits_dot s2 with
          | None => None
          | Some (c, s3) =>
              match span_digits s3 with
              | (EmptyString, _) => None
              | (d, _) => Some (a +:+ b +:+ c +:+ d)
              end
          end
      end
  end.

(** One position of [_macMatchRegex]: [.] is any character but a newline. *)
Inductive Pat := AnyChar | Colon.

Definition pat_ok (p : Pat) (c : ascii) : bool :=
  match p with
  | AnyChar => negb (Ascii.eqb c newline)
  | Colon => Ascii.eqb c ":"
  end.

Fixpoint match_pats (ps : list Pat) (s : string) : option string :=
  match ps with
  | [] => Some EmptyString
  | p :: ps' =>
      match s with
      | EmptyString => None
      | String c s' =>
          if pat_ok p c then String c <$> match_pats ps' s' else None
      end
  end.

Definition mac_pattern : list Pat :=
  [AnyChar; AnyChar; Colon; AnyChar; AnyChar; Colon; AnyChar; AnyChar; Colon;
   AnyChar; AnyChar; Colon; AnyChar; AnyChar; Colon; AnyChar; AnyChar].

Definition match_mac (s : string) : option string := match_pats mac_pattern s.

(** [regex.findall(s)] for a pattern that matches no empty text: scan from
    the left, keep each match, and go on after its end; [skip] counts the
    characters of the last match still to pass. *)
Fixpoint findall (m : string → option string) (skip : nat) (s : string)
  : list string :=
  match s with
  | EmptyString => []
  | String _ s' =>
      match skip with
      | S k => findall m k s'
      | O =>
          match m s with
          | Some found => found :: findall m (String.length found - 1) s'
          | None => findall m 0 s'
          end
      end
  end.

(** [l[0] if l else None] *)
Definition first_or_None (l : list string) : PyVal :=
  match l with
  | [] => VNone
  | x :: _ => VStr x
  end.

(** ['/' in v] *)
Definition in_slash (v : PyVal) : Res bool :=
  match v with
  | VStr s => Return (contains_char "/" s)
  | VList l | VTuple l =>
      Return (existsb (λ x, match x with
                            | VStr s => String.eqb s "/"
                            | _ => false
                            end) l)
  | VDict d => Return (existsb (λ kv, String.eqb kv.1 "/") d)
  | VNone | VBool _ | VInt _ => Raise TypeError
  end.

(** [v.split('/')] *)
Definition split_slash (v : PyVal) : Res (list string) :=
  match v with
  | VStr s => Return (split "/" s)
  | _ => Raise AttributeError
  end.

(** The methods [setParam] is asked for by name. *)
Inductive Method := SetMAC | SetIP | IsUp | IpAddr.

Section Handle.
Context `{Host}.

(** The handle a method runs on, the host, and the log of calls. *)
Record State := {
  self : Intf;
  world : World;
  trace : list Event
}.

Definition M (A : Type) : Type := State → Res A * State.

#[local] Instance M_ret : MRet M := λ A a s, (Return a, s).

#[local] Instance M_bind : MBind M := λ A B f m s,
  match m s with
  | (Return a, s1) => f a s1
  | (Raise e, s1) => (Raise e, s1)
  end.

Definition raise {A} (e : exn) : M A := λ s, (Raise e, s).

Definition lift {A} (r : Res A) : M A := λ s, (r, s).

Definition get_self : M Intf := λ s, (Return (self s), s).

Definition put_self (i : Intf) : M unit :=
  λ s, (Return (), {| self := i; world := world s; trace := trace s |}).

Definition emit (ev : Event) : M unit :=
  λ s, (Return (), {| self := self s; world := run (world s) ev;
                      trace := trace s ++ [ev] |}).

Definition set_ip_prefixLen (a p : PyVal) : M unit :=
  i ← get_self;
  put_self {| node := node i; name := name i; link := link i; mac := mac i;
              ip := a; prefixLen := p; params := params i |}.

Definition set_ip (a : PyVal) : M unit :=
  i ← get_self;
  put_self {| node := node i; name := name i; link := link i; mac := mac i;
              ip := a; prefixLen := prefixLen i; params := params i |}.

Definition set_mac (m : PyVal) : M unit :=
  i ← get_self;
  put_self {| node := node i; name := name i; link := link i; mac := m;
              ip := ip i; prefixLen := prefixLen i; params := params i |}.

Definition set_params (p : gmap string PyVal) : M unit :=
  i ← get_self;
  put_self {| node := node i; name := name i; link := link i; mac := mac i;
              ip := ip i; prefixLen := prefixLen i; params := p |}.

(** [cmd]: the call is passed on to [self.node.cmd] *)
Definition cmd (args : list Arg) : M string := λ s,
  match node (self s) with
  | None => (Raise AttributeError, s)
  | Some nd =>
      (Return (cmd_output (world s) (nd_name nd) args),
       {| self := self s; world := run (world s) (Cmd (nd_name nd) args);
          trace := trace s ++ [Cmd (nd_name nd) args] |})
  end.

(** [self.node.pexec(...)], of which only the captured output is used. *)
Definition pexec (args : list Arg) : M string := λ s,
  match node (self s) with
  | None => (Raise AttributeError, s)
  | Some nd =>
      (Return (pexec_output (world s) (nd_name nd) args),
       {| self := self s; world := run (world s) (Pexec (nd_name nd) args);
          trace := trace s ++ [Pexec (nd_name nd) args] |})
  end.

(** [ipAddr] *)
Definition ipAddr (args : list Arg) : M string :=
  i ← get_self;
  match args with
  | [] => cmd [Lit "ip addr show"; Val (name i)]
  | a :: _ =>
      cmd [Lit "ip addr flush "; Val (name i)];;
      cmd [Lit "ip -6 addr add "; a; Lit "dev"; Val (name i)]
  end.

(** [ipLink] *)
Definition ipLink (args : list Arg) : M string :=
  i ← get_self;
  cmd (Lit "ip link set" :: Val (name i) :: args).

(** [setIP] *)
Definition setIP (ipstr prefixLen : PyVal) : M PyVal :=
  has_slash ← lift (in_slash ipstr);
  if has_slash : bool then
    parts ← lift (split_slash ipstr);
    match parts with
    | [a; p] =>
        set_ip_prefixLen (VStr a) (VStr p);;
        out ← ipAddr [Val ipstr];
        mret (VStr out)
    | _ => raise ValueError
    end
  else
    match prefixLen with
    | VNone => raise (NoPrefixLength ipstr)
    | _ =>
        set_ip_prefixLen ipstr prefixLen;;
        out ← ipAddr [Fmt2 ipstr prefixLen];
        mret (VStr out)
    end.

(** [setMAC] *)
Definition setMAC (macstr : PyVal) : M PyVal :=
  set_mac macstr;;
  down ← ipLink [Lit "down"];
  address ← ipLink [Lit "address"; Val macstr];
  up ← ipLink [Lit "up"];
  mret (VStr (down +:+ address +:+ up)).

(** [updateIP] *)
Definition updateIP : M PyVal :=
  i ← get_self;
  ipAddr_out ← pexec [Lit "ip addr show "; Val (name i)];
  let ips := findall match_ip 0 ipAddr_out in
  set_ip (first_or_None ips);;
  i' ← get_self;
  mret (ip i').

(** [updateMAC] *)
Definition updateMAC : M PyVal :=
  ipAddr_out ← ipAddr [];
  let macs := findall match_mac 0 ipAddr_out in
  set_mac (first_or_None macs);;
  i' ← get_self;
  mret (mac i').

(** [updateAddr] *)
Definition updateAddr : M PyVal :=
  ipAddr_out ← ipAddr [];
  let ips := findall match_ip 0 ipAddr_out in
  let macs := findall match_mac 0 ipAddr_out in
  set_ip (first_or_None ips);;
  set_mac (first_or_None macs);;
  i' ← get_self;
  mret (VTuple [ip i'; mac i']).

(** [isUp] *)
Definition isUp (setUp : PyVal) : M PyVal :=
  if truthy setUp then
    cmdOutput ← ipLink [Lit "up"];
    if truthy (VStr cmdOutput) then mret (VBool false) else mret (VBool true)
  else
    out ← ipAddr [];
    mret (VBool (contains "UP" out)).

(** [f] called on an unpacked list, that is on positional arguments; a number of
    arguments the signature does not take is a [TypeError]. *)
Definition call_args (f : Method) (args : list PyVal) : M PyVal :=
  match f, args with
  | SetMAC, [macstr] => setMAC macstr
  | SetIP, [ipstr] => setIP ipstr VNone
  | SetIP, [ipstr; prefixLen] => setIP ipstr prefixLen
  | IsUp, [] => isUp (VBool false)
  | IsUp, [setUp] => isUp setUp
  | IpAddr, _ => out ← ipAddr (Val <$> args); mret (VStr out)
  | _, _ => raise TypeError
  end.

Definition kwarg (d : list (string * PyVal)) (k : string) : option PyVal :=
  snd <$> List.find (λ kv, String.eqb kv.1 k) d.

Definition only_keys (ks : list string) (d : list (string * PyVal)) : bool :=
  forallb (λ kv, existsb (String.eqb kv.1) ks) d.

(** [f] called on an unpacked dictionary, that is on keyword arguments; a keyword the
    signature does not name, or a required parameter left out, is a
    [TypeError]. *)
Definition call_kwargs (f : Method) (d : list (string * PyVal)) : M PyVal :=
  match f with
  | SetMAC =>
      match only_keys ["macstr"] d, kwarg d "macstr" with
      | true, Some macstr => setMAC macstr
      | _, _ => raise TypeError
      end
  | SetIP =>
      match only_keys ["ipstr"; "prefixLen"] d, kwarg d "ipstr" with
      | true, Some ipstr => setIP ipstr (default VNone (kwarg d "prefixLen"))
      | _, _ => raise TypeError
      end
  | IsUp =>
      if only_keys ["setUp"] d
      then isUp (default (VBool false) (kwarg d "setUp"))
      else raise TypeError
  | IpAddr =>
      match d with
      | [] => out ← ipAddr []; mret (VStr out)
      | _ => raise TypeError
      end
  end.

(** [setParam]: [results] is the dictionary the caller passes, given back
    updated next to the value the method returns. *)
Definition setParam (results : gmap string PyVal) (method : Method)
  (name : string) (value : PyVal) : M (PyVal * gmap string PyVal) :=
  match value with
  | VNone => mret (VNone, results)
  | VList l =>
      result ← call_args method l;
      mret (result, <[name := result]> results)
  | VDict d =>
      result ← call_kwargs method d;
      mret (result, <[name := result]> results)
  | _ =>
      result ← call_args method [value];
      mret (result, <[name := result]> results)
  end.

(** [config] *)
Definition config (mac ip ipAddr up : PyVal) : M (gmap string PyVal) :=
  let r : gmap string PyVal := ∅ in
  setIP ip VNone;;
  '(_, r) ← setParam r SetMAC "mac" mac;
  '(_, r) ← setParam r SetIP "ip" ip;
  '(_, r) ← setParam r IsUp "up" up;
  '(_, r) ← setParam r IpAddr "ipAddr" ipAddr;
  mret r.

(** [config] called on the unpacked [params]: the keywords [config] names are bound, each to its
    default when absent, and the others are ignored. *)
Definition config_kw (params : gmap string PyVal) : M (gmap string PyVal) :=
  config (default VNone (params !! "mac")) (default VNone (params !! "ip"))
         (default VNone (params !! "ipAddr"))
         (default (VBool true) (params !! "up")).

(** The body of [__init__], run on the object under construction.  [params]
    holds the keywords that [__init__] does not name itself. *)
Definition init (node : option Node) (port : PyVal)
  (params : gmap string PyVal) : M unit :=
  i ← get_self;
  (match name i with
   | VStr "lo" => set_ip_prefixLen (VStr "127.0.0.1") (VInt 8)
   | _ => mret ()
   end);;
  params ←
    match node with
    | Some nd =>
        let moveIntfFn := default VNone (params !! "moveIntfFn") in
        let params := delete "moveIntfFn" params in
        emit (AddIntf (nd_name nd) (name i) port
                (if truthy moveIntfFn then moveIntfFn else VNone));;
        mret params
    | None => mret params
    end;
  set_params params;;
  config_kw params;;
  mret ().

(** The constructor call: the handle, when [__init__] returns. *)
Definition IntfSixLoWPAN (name : PyVal) (node : option Node)
  (port link mac : PyVal) (params : gmap string PyVal)
  (w : World) (tr : list Event) : Res Intf * State :=
  let fresh := {| node := node; name := name; link := link; mac := mac;
                  ip := VNone; prefixLen := VNone; params := ∅ |} in
  match init node port params {| self := fresh; world := w; trace := tr |} with
  | (Return _, s) => (Return (self s), s)
  | (Raise e, s) => (Raise e, s)
  end.

(** *** The other methods of [IntfSixLoWPAN] *)

Definition set_name (n : PyVal) : M unit :=
  i ← get_self;
  put_self {| node := node i; name := n; link := link i; mac := mac i;
              ip := ip i; prefixLen := prefixLen i; params := params i |}.

(** [IP] *)
Definition IP : M PyVal := i ← get_self; mret (ip i).

(** [MAC] *)
Definition MAC : M PyVal := i ← get_self; mret (mac i).

(** [rename] *)
Definition rename (newname : PyVal) : M PyVal :=
  ipLink [Lit "down"];;
  i ← get_self;
  result ← cmd [Lit "ip link set"; Val (name i); Lit "name"; Val newname];
  set_name newname;;
  ipLink [Lit "up"];;
  mret (VStr result).

(** [status]: [self.name in links] needs a string on its left, anything
    else is a [TypeError]. *)
Definition status : M PyVal :=
  links ← pexec [Lit "ip link show"];
  i ← get_self;
  match name i with
  | VStr n => mret (VStr (if contains n links then "OK" else "MISSING"))
  | _ => raise TypeError
  end.


End Handle.

(** *** class [sixLoWPANLink] *)

Section Establisher.
Context `{Host}.

(** The host and the log, between the calls of [configIface]. *)
Definition Env : Type := World * list Event.

(** [node.cmd(...)] on the node itself; the text it returns is dropped. *)
Definition node_cmd (nd : Node) (args : list Arg) (e : Env) : Env :=
  (run e.1 (Cmd (nd_name nd) args), (e.2 ++ [Cmd (nd_name nd) args])%list).

(** A handle class: what calling it on [node], [mac] and the keywords of
    [params] does. *)
Definition Constructor : Type :=
  Node → PyVal → gmap string PyVal → Env → Res Intf * Env.

(** The call of the class [IntfSixLoWPAN] on [node=node, mac=addr] and the
    unpacked [params]: [name], [port] and [link] are parameters of
    [__init__], a second value for [node] or [mac] is a [TypeError], and so
    is a missing [name]. *)
Definition IntfSixLoWPAN_cls : Constructor := λ nd addr params e,
  if bool_decide (is_Some (params !! "node") ∨ is_Some (params !! "mac"))
  then (Raise TypeError, e)
  else
    match params !! "name" with
    | None => (Raise TypeError, e)
    | Some nm =>
        let '(r, s) :=
          IntfSixLoWPAN nm (Some nd)
            (default VNone (params !! "port"))
            (default VNone (params !! "link")) addr
            (delete "name" (delete "port" (delete "link" params))) e.1 e.2 in
        (r, (world s, trace s))
    end.

(** [wpanName] *)
Definition wpanName (nd : Node) (ifacename : string) (n : PyVal) : string :=
  nd_name nd +:+ "-" +:+ ifacename.

(** [configIface]: what it stores in [cls.intf1] and [cls.intf2] when it
    returns.  [cls] is [None] when the caller passes no class. *)
Definition configIface (nd : Node) (port intfName addr : PyVal)
  (cls : option Constructor) (params : gmap string PyVal) (e : Env)
  : Res (Intf * string) * Env :=
  let e := node_cmd nd [Lit "ip link set lo up"] e in
  match nd_wlan nd !! 0%nat with
  | None => (Raise IndexError, e)
  | Some wlan0 =>
  let e := node_cmd nd [Lit "ip link set "; Val (VStr wlan0); Lit " down"] e in
  match params !! "panid" with
  | None => (Raise KeyError, e)
  | Some panid =>
  let e := node_cmd nd [Lit "iwpan dev "; Val (VStr wlan0);
                        Lit " set pan_id "; Val panid] e in
  let e := node_cmd nd [Lit "ip link add link "; Val (VStr wlan0);
                        Lit " name "; Val (VStr (nd_name nd));
                        Lit "-lowpan type lowpan"] e in
  let e := node_cmd nd [Lit "ip link set "; Val (VStr wlan0); Lit " up"] e in
  let e := node_cmd nd [Lit "ip link set "; Val (VStr (nd_name nd));
                        Lit "-lowpan up"] e in
  let params :=
    match port with
    | VNone => params
    | _ => <["port" := port]> params
    end in
  let '(params, e) :=
    match params !! "port" with
    | Some _ => (params, e)
    | None =>
        (<["port" := new_port e.1 (nd_name nd)]> params,
         (run e.1 (NewPort (nd_name nd)), (e.2 ++ [NewPort (nd_name nd)])%list))
    end in
  let '(intfName1, e) :=
    if truthy intfName then (None, e)
    else
      let e := (run e.1 (NewWlanPort (nd_name nd)),
                (e.2 ++ [NewWlanPort (nd_name nd)])%list) in
      (Some (wpanName nd "lowpan" VNone), e) in
  let cls := default IntfSixLoWPAN_cls cls in
  match nd_ip nd !! 0%nat with
  | None => (Raise IndexError, e)
  | Some ip0 =>
  let params := <["ip" := VStr ip0]> params in
  match intfName1 with
  | None => (Raise UnboundLocalError, e)
  | Some nm =>
  let params := <["name" := VStr nm]> params in
  match cls nd addr params e with
  | (Return intf1, e) => (Return (intf1, "6LoWPAN"), e)
  | (Raise x, e) => (Raise x, e)
  end
  end
  end
  end
  end.

End Establisher.

(** *** What a call of [configIface] needs to get as far as the name *)

(** The lookups that come before the name is used succeed: the node has a
    first radio and a first address, and [panid] was passed. *)
Definition reaches_naming (nd : Node) (params : gmap string PyVal) : Prop :=
  is_Some (nd_wlan nd !! 0%nat) ∧ is_Some (params !! "panid")
  ∧ is_Some (nd_ip nd !! 0%nat).

(** An event that constructing a handle would not leave. *)
Definition no_handle_event (ev : Event) : Prop :=
  match ev with
  | AddIntf _ _ _ _ | Pexec _ _ => False
  | _ => True
  end.

(** *** A host, a node and a handle to run on *)

(** The handle [i] with another address and prefix length. *)
Definition with_address (i : Intf) (a p : PyVal) : Intf :=
  {| node := node i; name := name i; link := link i; mac := mac i;
     ip := a; prefixLen := p; params := params i |}.

(** The log of the six commands with which [configIface] prepares the radio
    and creates the lowpan device. *)
Definition prepare (nd : Node) (wlan0 : string) (panid : PyVal) : list Event :=
  Cmd (nd_name nd) <$>
    [[Lit "ip link set lo up"];
     [Lit "ip link set "; Val (VStr wlan0); Lit " down"];
     [Lit "iwpan dev "; Val (VStr wlan0); Lit " set pan_id "; Val panid];
     [Lit "ip link add link "; Val (VStr wlan0); Lit " name ";
      Val (VStr (nd_name nd)); Lit "-lowpan type lowpan"];
     [Lit "ip link set "; Val (VStr wlan0); Lit " up"];
     [Lit "ip link set "; Val (VStr (nd_name nd)); Lit "-lowpan up"]].

(** A host whose commands print nothing. *)
Definition silent_host : Host := {|
  World := unit;
  cmd_output := λ _ _ _, "";
  pexec_output := λ _ _ _, "";
  new_port := λ _ _, VInt 0;
  run := λ w _, w
|}.

(** A host whose commands all print one listing of the lowpan device. *)
Definition listing : string :=
  "2: sensor1-lowpan: <BROADCAST,UP> mtu 1280 link/ether 02:00:00:00:01:00 inet6 2001::1/64".

Definition listing_host : Host := {|
  World := unit;
  cmd_output := λ _ _ _, listing;
  pexec_output := λ _ _ _, listing;
  new_port := λ _ _, VInt 0;
  run := λ w _, w
|}.

Definition mote : Node :=
  {| nd_name := "sensor1"; nd_pid := 4242; nd_kind := Station;
     nd_wlan := ["sensor1-wpan0"]; nd_ip := ["2001::1/64"];
     nd_params := ∅; nd_phyID := [0]; nd_ifb := [] |}.

Definition handle (nm : string) (owner : option Node) : Intf :=
  {| node := owner; name := VStr nm; link := VNone; mac := VNone;
     ip := VNone; prefixLen := VNone; params := ∅ |}.

Definition on_handle (i : Intf) : @State silent_host :=
  @Build_State silent_host i () [].

End Link.

(** * Properties of the device allocator *)

Module WifiModuleProps.
Import WifiModule.

(** ** The naming prefix *)

Lemma prefix_app (a b : string) :
  String.prefix a b = true ↔ ∃ r, b = a +:+ r.
Proof.
  revert b. induction a as [|c a IH]; intros b.
  - split; [intros _; by exists b|]. by destruct b.
  - destruct b as [|c' b]; simpl.
    + split; [done|]. intros [r Hr]. discriminate.
    + destruct (ascii_dec c c') as [->|Hne].
      * rewrite IH. split; intros [r Hr]; exists r.
        -- by rewrite Hr.
        -- by injection Hr.
      * split; [done|]. intros [r Hr]. injection Hr as -> _. done.
Qed.

Lemma all_digits_uint d : all_digits (NilEmpty.string_of_uint d) = true.
Proof. induction d; simpl; auto. Qed.

Lemma all_digits_fmt n : all_digits (fmt_02d n) = true.
Proof. unfold fmt_02d. case_match; simpl; apply all_digits_uint. Qed.

(** Reading the formatted counter back gives the counter. *)
Lemma fmt_02d_value n :
  Nat.of_uint <$> NilEmpty.uint_of_string (fmt_02d n) = Some n.
Proof.
  unfold fmt_02d. case_match.
  - change ("0" +:+ ?s) with (String "0" s). simpl NilEmpty.uint_of_string.
    rewrite NilEmpty.usu. simpl.
    f_equal. rewrite <- (Unsigned.of_to n) at 2. reflexivity.
  - rewrite NilEmpty.usu. simpl. f_equal. apply Unsigned.of_to.
Qed.

Lemma fmt_02d_inj n m : fmt_02d n = fmt_02d m → n = m.
Proof.
  intros E. pose proof (fmt_02d_value n) as Hn.
  rewrite E, fmt_02d_value in Hn. congruence.
Qed.

Lemma digits_then_s (a b r1 r2 : string) :
  all_digits a = true → all_digits b = true →
  a +:+ String "s" r1 = b +:+ String "s" r2 → a = b.
Proof.
  revert b. induction a as [|c a IH]; intros [|c' b] Ha Hb E; simpl in *.
  - done.
  - injection E as <- _. by apply andb_prop in Hb as [? _].
  - injection E as -> _. by apply andb_prop in Ha as [? _].
  - injection E as -> E. apply andb_prop in Ha as [_ Ha].
    apply andb_prop in Hb as [_ Hb]. f_equal. eauto.
Qed.

(** A name starts with the prefix of at most one counter. *)
Lemma prefix_of_unique (n m : nat) (phy : string) :
  String.prefix (prefix_of n) phy = true →
  String.prefix (prefix_of m) phy = true → n = m.
Proof.
  rewrite !prefix_app. intros [r1 E1] [r2 E2]. subst phy.
  unfold prefix_of in E2.
  change ("mn" +:+ ?x) with (String "m" (String "n" x)) in E2.
  injection E2 as E2.
  assert (∀ a r, (a +:+ "s") +:+ r = a +:+ String "s" r) as Happ.
  { intros a r. induction a as [|c a IHa]; [done|].
    change (String c ((a +:+ "s") +:+ r) = String c (a +:+ String "s" r)).
    by rewrite IHa. }
  rewrite !Happ in E2.
  apply fmt_02d_inj. symmetry.
  eapply digits_then_s; eauto using all_digits_fmt.
Qed.

Lemma collides_exists (pre : string) (phys : list string) :
  collides pre phys = true ↔ ∃ phy, phy ∈ phys ∧ String.prefix pre phy = true.
Proof.
  induction phys as [|p phys IH]; simpl.
  - split; [done|]. intros (? & Hin & _). by apply elem_of_nil in Hin.
  - destruct (String.prefix pre p) eqn:E.
    + split; [|done]. intros _. exists p. split; [left|done].
    + rewrite IH. split; intros (phy & Hin & Hp); exists phy.
      * split; [by right|done].
      * apply elem_of_cons in Hin as [->|Hin]; [congruence|done].
Qed.

Lemma filter_at_most_one {A} (f : A → bool) (l : list A) :
  NoDup l →
  (∀ x y, x ∈ l → y ∈ l → f x = true → f y = true → x = y) →
  (length l ≤ S (length (List.filter (λ x, negb (f x)) l)))%nat.
Proof.
  induction 1 as [|x l Hx Hl IH]; intros Huniq; simpl; [lia|].
  destruct (f x) eqn:Ex; simpl.
  - assert (List.filter (λ x, negb (f x)) l = l) as ->; [|lia].
    apply forallb_filter_id, forallb_forall. intros y Hy.
    apply list_elem_of_In in Hy.
    destruct (f y) eqn:Ey; [|done].
    assert (x = y) as -> by (apply Huniq; [left|by right|done..]). done.
  - assert (length l ≤ S (length (List.filter (λ x, negb (f x)) l)))%nat; [|lia].
    apply IH. intros y z Hy Hz. apply Huniq; by right.
Qed.

(** More candidate counters than names: one of them is free. *)
Lemma free_candidate (phys : list string) (cands : list nat) :
  NoDup cands → (length phys < length cands)%nat →
  ∃ n, n ∈ cands ∧ collides (prefix_of n) phys = false.
Proof.
  revert cands. induction phys as [|p phys IH]; intros cands Hnd Hlen.
  - destruct cands as [|n cands]; [simpl in Hlen; lia|].
    exists n. split; [left|done].
  - set (f := λ n, String.prefix (prefix_of n) p).
    destruct (IH (List.filter (λ n, negb (f n)) cands)) as (n & Hin & Hn).
    + by apply NoDup_ListNoDup, List.NoDup_filter, NoDup_ListNoDup.
    + pose proof (filter_at_most_one f cands Hnd) as Hf. simpl in Hlen.
      assert (length cands
              ≤ S (length (List.filter (λ x, negb (f x)) cands)))%nat; [|lia].
      apply Hf. intros x y _ _. apply prefix_of_unique.
    + apply list_elem_of_In, filter_In in Hin as [Hin Hf].
      exists n. split; [by apply list_elem_of_In|].
      simpl. unfold f in Hf. by destruct (String.prefix (prefix_of n) p).
Qed.

Lemma first_free_or_none (P : nat → bool) (k : nat) :
  (∀ m, (m < k)%nat → P m = true) ∨
  ∃ n, (n < k)%nat ∧ P n = false ∧ ∀ m, (m < n)%nat → P m = true.
Proof.
  induction k as [|k [Hall|(n & Hn & HP & Hmin)]].
  - left. intros m Hm. lia.
  - destruct (P k) eqn:Ek.
    + left. intros m Hm. destruct (decide (m = k)) as [->|]; [done|].
      apply Hall. lia.
    + right. exists k. split; [lia|]. split; [done|]. done.
  - right. exists n. split; [lia|]. split; done.
Qed.

Lemma prefix_loop_reaches (phys : list string) (fuel num n : nat) :
  (num ≤ n)%nat → (n - num < fuel)%nat →
  collides (prefix_of n) phys = false →
  (∀ m, (num ≤ m < n)%nat → collides (prefix_of m) phys = true) →
  prefix_loop fuel phys num = Some (n, prefix_of n).
Proof.
  revert num. induction fuel as [|fuel IH]; intros num Hle Hf Hn Hbelow; [lia|].
  simpl. destruct (decide (num = n)) as [->|Hne].
  - by rewrite Hn.
  - rewrite Hbelow by lia. apply IH; [lia..|done|].
    intros m Hm. apply Hbelow. lia.
Qed.

(** With more fuel than names the loop ends, on the first free counter. *)
Lemma prefix_loop_first_free (phys : list string) (fuel : nat) :
  (length phys < fuel)%nat →
  ∃ num,
    prefix_loop fuel phys 0 = Some (num, prefix_of num)
    ∧ (∀ phy, phy ∈ phys → String.prefix (prefix_of num) phy = false)
    ∧ (∀ m, (m < num)%nat →
         ∃ phy, phy ∈ phys ∧ String.prefix (prefix_of m) phy = true).
Proof.
  intros Hfuel.
  destruct (free_candidate phys (seq 0 (S (length phys))))
    as (n0 & Hin & Hfree).
  { apply NoDup_ListNoDup, List.seq_NoDup. }
  { rewrite length_seq. lia. }
  apply elem_of_seq in Hin.
  destruct (first_free_or_none (λ n, collides (prefix_of n) phys)
              (S (length phys))) as [Hall|(num & Hnum & Hnone & Hmin)].
  { rewrite Hall in Hfree by lia. done. }
  exists num. split; [|split].
  - apply prefix_loop_reaches; [lia|lia|done|]. intros m Hm. apply Hmin. lia.
  - intros phy Hphy.
    destruct (String.prefix (prefix_of num) phy) eqn:E; [|done].
    assert (collides (prefix_of num) phys = true)
      by (apply collides_exists; eauto).
    congruence.
  - intros m Hm. apply collides_exists, Hmin, Hm.
Qed.

(** ** The listing of the interfaces *)

(** C6. [get_virtual_wlan] never populates the free pool: whenever the
    listing command succeeds, whatever it printed, the split of its undecoded
    output raises [TypeError]; when the command fails, [check_output] raises.
    Either way the unsorted list of the class has been emptied by then and
    the pool, the counter, the prefix, the host and the log are as they
    were, so no name is sorted or stored.  On the listing [wpan10], [wpan2],
    [wpan0] the call raises [TypeError] and the pool keeps its stale
    entry. *)
Theorem get_virtual_wlan_raises :
  (∀ (H : Host) (s : State),
     ∃ e s',
       get_virtual_wlan s = (Raise e, s')
       ∧ e = match iwpan_interfaces (world s) with
             | Some _ => TypeError
             | None => CalledProcessError
             end
       ∧ wlans (cls s') = []
       ∧ wlan_list (cls s') = wlan_list (cls s)
       ∧ phyID (cls s') = phyID (cls s) ∧ prefix (cls s') = prefix (cls s)
       ∧ world s' = world s ∧ trace s' = trace s)
  ∧ (let s := @Build_State steady_host (registry ["stale0"] 0) () [] in
     iwpan_interfaces (world s) = Some (lines ["wpan10"; "wpan2"; "wpan0"])
     ∧ (get_virtual_wlan s).1 = Raise TypeError
     ∧ wlan_list (cls (get_virtual_wlan s).2) = ["stale0"]).
Proof.
  split; [|done].
  intros H s. unfold get_virtual_wlan.
  destruct (iwpan_interfaces (world s)); simpl; eexists _, _; done.
Qed.

(** ** Runs of [assign_iface] *)

Section Runs.
Context `{Host}.

Lemma run_inv_refl s : run_inv s s.
Proof.
  exists []. rewrite app_nil_r. simpl. split; [done|]. split; [done|].
  split; [done|]. lia.
Qed.

Lemma run_inv_trans s1 s2 s3 : run_inv s1 s2 → run_inv s2 s3 → run_inv s1 s3.
Proof.
  intros (e1 & Ht1 & Hp1 & Hs1 & Hc1) (e2 & Ht2 & Hp2 & Hs2 & Hc2).
  exists (e1 ++ e2). unfold pops, stores in *.
  rewrite !omap_app, fmap_app, length_app.
  split; [by rewrite Ht2, Ht1, app_assoc|].
  split; [by rewrite Hp1, Hp2, app_assoc|].
  split; [|lia].
  rewrite Nat2Z.inj_add, seqZ_app by lia. by rewrite Hs1, Hs2, Hc1.
Qed.

(** However a slot ends, it keeps the invariant. *)
Lemma assign_slot_inv phys wlan nd s :
  run_inv s (assign_slot phys wlan (nd, s)).2.2.
Proof.
  unfold assign_slot.
  repeat case_match; simpl; try apply run_inv_refl;
    (eexists; split; [simpl; rewrite <- ?app_assoc; reflexivity|]);
    simpl; try done.
Qed.

Lemma for_each_slot_inv phys slots nd s :
  run_inv s (for_each (assign_slot phys) slots (nd, s)).2.2.
Proof.
  revert nd s.
  induction slots as [|wlan slots IH]; intros nd s; cbn [for_each].
  - apply run_inv_refl.
  - pose proof (assign_slot_inv phys wlan nd s) as Hslot.
    destruct (assign_slot phys wlan (nd, s)) as [[[]|e] [nd1 s1]];
      cbn [snd] in *.
    + eapply run_inv_trans; [exact Hslot|apply IH].
    + done.
Qed.

Lemma assign_node_inv phys nd s : run_inv s (assign_node phys nd s).2.2.
Proof.
  unfold assign_node. destruct (isolated nd).
  - apply for_each_slot_inv.
  - apply run_inv_refl.
Qed.

Lemma assign_nodes_inv phys nodes s :
  run_inv s (assign_nodes phys nodes s).2.2.
Proof.
  revert s. induction nodes as [|nd nodes IH]; intros s; cbn [assign_nodes].
  - apply run_inv_refl.
  - pose proof (assign_node_inv phys nd s) as Hnode.
    destruct (assign_node phys nd s) as [[[]|e] [nd1 s1]];
      cbn [snd] in *; [|done].
    specialize (IH s1).
    destruct (assign_nodes phys nodes s1) as [r [rest1 s2]]; cbn [snd] in *.
    by eapply run_inv_trans.
Qed.

(** *** How far a run got *)








End Runs.











End WifiModuleProps.

(** * Properties of the interface handle and of the link establisher *)

Module LinkProps.
Import Link.

Ltac run_method :=
  unfold ipLink, ipAddr, cmd, pexec, set_mac, set_ip, set_ip_prefixLen,
    put_self, get_self, raise, lift, mbind, M_bind, mret, M_ret in *;
  simpl in *; repeat case_match; simplify_eq/=.

Section Handle.
Context `{Host}.

(** ** What a call changes on the handle *)

Lemma ipAddr_keeps args s :
  prefixLen (self (ipAddr args s).2) = prefixLen (self s).
Proof. by run_method. Qed.

Lemma setMAC_keeps a s :
  prefixLen (self (setMAC a s).2) = prefixLen (self s).
Proof. unfold setMAC. by run_method. Qed.

Lemma isUp_keeps a s : prefixLen (self (isUp a s).2) = prefixLen (self s).
Proof. unfold isUp. by run_method. Qed.

(** [setIP] without a prefix length returns only on a string, and then
    leaves a string in [prefixLen]. *)
Lemma setIP_None_str v s r s' :
  setIP v VNone s = (Return r, s') →
  (∃ str, v = VStr str) ∧ ∃ p, prefixLen (self s') = VStr p.
Proof.
  unfold setIP, in_slash, split_slash.
  destruct v; run_method; intros; simplify_eq/=; eauto.
Qed.

Lemma call_args_keeps f args s :
  f ≠ SetIP → prefixLen (self (call_args f args s).2) = prefixLen (self s).
Proof.
  intros Hq. destruct f; [| done | |].
  - destruct args as [|a [|b args]]; simpl; try done. apply setMAC_keeps.
  - destruct args as [|a [|b args]]; simpl; try done; apply isUp_keeps.
  - unfold call_args. by run_method.
Qed.

Lemma call_kwargs_keeps f d s :
  f ≠ SetIP → prefixLen (self (call_kwargs f d s).2) = prefixLen (self s).
Proof.
  intros Hq. destruct f; [| done | |]; unfold call_kwargs.
  - repeat case_match; try done. apply setMAC_keeps.
  - repeat case_match; try done; apply isUp_keeps.
  - destruct d; [|done]. by run_method.
Qed.

Lemma setParam_keeps r f nm v s :
  f ≠ SetIP → prefixLen (self (setParam r f nm v s).2) = prefixLen (self s).
Proof.
  intros Hq. unfold setParam.
  destruct v; try done; unfold mbind, M_bind;
    match goal with
    | |- context [call_args ?f ?a ?s] =>
        pose proof (call_args_keeps f a s Hq) as Hk;
        destruct (call_args f a s) as [[]] eqn:E
    | |- context [call_kwargs ?f ?a ?s] =>
        pose proof (call_kwargs_keeps f a s Hq) as Hk;
        destruct (call_kwargs f a s) as [[]] eqn:E
    end; simpl in *; done.
Qed.

(** When [config] returns, [prefixLen] holds a string. *)
Lemma config_prefixLen_str mac ip ipAddr up s r s' :
  config mac ip ipAddr up s = (Return r, s') →
  ∃ p, prefixLen (self s') = VStr p.
Proof.
  unfold config. unfold mbind at 1. unfold M_bind at 1.
  destruct (setIP ip VNone s) as [[v0|] s0] eqn:E0; [|done].
  apply setIP_None_str in E0 as [[str ->] [p0 Hp0]].
  unfold mbind at 1. unfold M_bind at 1.
  pose proof (setParam_keeps ∅ SetMAC "mac" mac s0 ltac:(done)) as K1.
  destruct (setParam ∅ SetMAC "mac" mac s0) as [[[v1 r1]|] s1]; [|done].
  unfold mbind at 1. unfold M_bind at 1.
  destruct (setParam r1 SetIP "ip" (VStr str) s1)
    as [[[v2 r2]|] s2] eqn:E2; [|done].
  assert (∃ p, prefixLen (self s2) = VStr p) as [p2 Hp2].
  { unfold setParam in E2. unfold mbind, M_bind in E2. simpl in E2.
    destruct (setIP (VStr str) VNone s1) as [[v|] s1'] eqn:E; [|done].
    apply setIP_None_str in E as [_ Hp].
    unfold mret, M_ret in E2. by simplify_eq/=. }
  unfold mbind at 1. unfold M_bind at 1.
  pose proof (setParam_keeps r2 IsUp "up" up s2 ltac:(done)) as K3.
  destruct (setParam r2 IsUp "up" up s2) as [[[v3 r3]|] s3]; [|done].
  unfold mbind at 1. unfold M_bind at 1.
  pose proof (setParam_keeps r3 IpAddr "ipAddr" ipAddr s3 ltac:(done)) as K4.
  destruct (setParam r3 IpAddr "ipAddr" ipAddr s3) as [[[v4 r4]|] s4];
    [|done].
  simpl in *. intros [= <- <-]. exists p2. congruence.
Qed.

(** A handle named [lo], once constructed, holds a string in [prefixLen]. *)
Lemma lo_prefixLen_str (owner : option Node) (port link mac : PyVal)
    (params : gmap string PyVal) (w : World) (tr : list Event)
    (i : Intf) (s' : State) :
  IntfSixLoWPAN (VStr "lo") owner port link mac params w tr = (Return i, s') →
  ∃ p, prefixLen i = VStr p.
Proof.
  unfold IntfSixLoWPAN.
  destruct (init _ _ _ _) as [[[]|] s1] eqn:E; [|done]. intros [= <- <-].
  unfold init, config_kw in E.
  unfold mbind, M_bind, get_self, set_ip_prefixLen, set_params, put_self, emit,
    mret, M_ret in E. simpl in E.
  destruct owner as [nd|]; simpl in E.
  - destruct (config _ _ _ _ _) as [[r|] s2] eqn:Ec; [|done].
    apply config_prefixLen_str in Ec. by simplify_eq/=.
  - destruct (config _ _ _ _ _) as [[r|] s2] eqn:Ec; [|done].
    apply config_prefixLen_str in Ec. by simplify_eq/=.
Qed.

(** ** The claims *)

(** C2. [config] called with [mac], [ip] and [ipAddr] absent and [up] at
    its default is claimed to perform only the up/down step and to return a
    mapping whose only key is [up], the leading bare [setIP(ip)] being a
    no-op.  The code does not do that: whatever [mac], [ipAddr] and [up]
    are, with [ip] absent the leading [setIP(ip)] raises [TypeError] on
    ['/' in None], before any command is issued and before any [setParam],
    and no mapping is returned. *)
Theorem config_without_ip_raises (mac ipAddr up : PyVal) (s : State) :
  config mac VNone ipAddr up s = (Raise TypeError, s)
  ∧ config VNone VNone VNone (VBool true) s = (Raise TypeError, s).
Proof. split; reflexivity. Qed.

(** C4. For every interface handle and every address string without a
    ['/'], [setIP] called with no prefix length raises the exception for the
    missing prefix length; the handle, its [ip] and [prefixLen] included, is
    left as it was, and no command is issued. *)
Theorem setIP_without_prefix_fails (s : State) (ipstr : string) :
  contains_char "/" ipstr = false →
  setIP (VStr ipstr) VNone s = (Raise (NoPrefixLength (VStr ipstr)), s).
Proof.
  intros Hno. unfold setIP, mbind, M_bind, lift. simpl. by rewrite Hno.
Qed.

(** C7. Constructing a handle named [lo] is claimed to yield always
    [ip == "127.0.0.1"] and [prefixLen == 8].  The code does not do that:
    with no [ip] keyword the constructor sets the pair and then raises
    [TypeError] in the leading [setIP(ip)] of [config], so that no handle is
    yielded; and whenever a handle named [lo] is yielded, [setIP] has
    overwritten [prefixLen], which is never the integer 8. *)
Theorem lo_construction_loses_loopback :
  (∀ (owner : option Node) (port link mac : PyVal) (w : World)
     (tr : list Event),
     ∃ s', IntfSixLoWPAN (VStr "lo") owner port link mac ∅ w tr
           = (Raise TypeError, s')
           ∧ ip (self s') = VStr "127.0.0.1"
           ∧ prefixLen (self s') = VInt 8)
  ∧ (∀ (owner : option Node) (port link mac : PyVal)
       (params : gmap string PyVal) (w : World) (tr : list Event)
       (i : Intf) (s' : State),
       IntfSixLoWPAN (VStr "lo") owner port link mac params w tr
       = (Return i, s') →
       prefixLen i ≠ VInt 8).
Proof.
  split.
  - intros [nd|] port link mac w tr; eexists; (split; [reflexivity|done]).
  - intros owner port link mac params w tr i s' Hrun.
    destruct (lo_prefixLen_str _ _ _ _ _ _ _ _ _ Hrun) as [p ->]. done.
Qed.

(** C8. For every interface handle with an owning node, [isUp] called with
    [setUp] true runs the bring-up command and returns [True] if and only if
    the output of that command is empty, and [False] on any other output; it
    raises nothing and leaves the handle as it was. *)
Theorem isUp_setUp_empty_means_ok (s : State) (nd : Node) :
  node (self s) = Some nd →
  let bring_up := [Lit "ip link set"; Val (name (self s)); Lit "up"] in
  let out := cmd_output (world s) (nd_name nd) bring_up in
  ∃ s', isUp (VBool true) s = (Return (VBool (bool_decide (out = ""))), s')
        ∧ (out = "" → isUp (VBool true) s = (Return (VBool true), s'))
        ∧ (out ≠ "" → isUp (VBool true) s = (Return (VBool false), s'))
        ∧ self s' = self s
        ∧ trace s' = trace s ++ [Cmd (nd_name nd) bring_up].
Proof.
  intros Hnode bring_up out.
  unfold isUp, ipLink, cmd, mbind, M_bind, get_self. simpl.
  rewrite Hnode. fold bring_up out.
  destruct (String.eqb_spec out "") as [E|E]; simpl.
  - eexists. rewrite bool_decide_eq_true_2 by done.
    split; [reflexivity|]. by repeat split.
  - eexists. rewrite bool_decide_eq_false_2 by done.
    split; [reflexivity|]. by repeat split.
Qed.

(** C10, as amended.  For every interface handle with an owning node and
    every output of the command, [updateIP], [updateMAC] and [updateAddr]
    return without raising: the field [ip], and likewise [mac], is set to the
    first match of its pattern in the output, or to [None] when the pattern
    finds no match; [updateIP] and [updateMAC] return that field, so [None]
    when there is no match, and [updateAddr] returns the pair of the two
    fields, in which the field without a match is [None]. *)
Theorem update_total_on_any_output (s : State) (nd : Node) :
  node (self s) = Some nd →
  let shown := pexec_output (world s) (nd_name nd)
                 [Lit "ip addr show "; Val (name (self s))] in
  let listed := cmd_output (world s) (nd_name nd)
                  [Lit "ip addr show"; Val (name (self s))] in
  (∃ s', updateIP s = (Return (first_or_None (findall match_ip 0 shown)), s')
         ∧ ip (self s') = first_or_None (findall match_ip 0 shown)
         ∧ (findall match_ip 0 shown = [] →
            updateIP s = (Return VNone, s') ∧ ip (self s') = VNone))
  ∧ (∃ s', updateMAC s
           = (Return (first_or_None (findall match_mac 0 listed)), s')
           ∧ mac (self s') = first_or_None (findall match_mac 0 listed)
           ∧ (findall match_mac 0 listed = [] →
              updateMAC s = (Return VNone, s') ∧ mac (self s') = VNone))
  ∧ (∃ s', updateAddr s
           = (Return (VTuple [first_or_None (findall match_ip 0 listed);
                              first_or_None (findall match_mac 0 listed)]), s')
           ∧ ip (self s') = first_or_None (findall match_ip 0 listed)
           ∧ mac (self s') = first_or_None (findall match_mac 0 listed)
           ∧ (findall match_ip 0 listed = [] → ip (self s') = VNone)
           ∧ (findall match_mac 0 listed = [] → mac (self s') = VNone)).
Proof.
  intros Hnode shown listed.
  unfold updateIP, updateMAC, updateAddr, ipAddr, cmd, pexec, set_ip, set_mac,
    put_self, get_self, mbind, M_bind, mret, M_ret.
  simpl. rewrite Hnode. simpl. fold shown listed.
  split; [|split]; eexists; (split; [reflexivity|]); simpl.
  - split; [done|]. by intros ->.
  - split; [done|]. by intros ->.
  - split; [done|]. split; [done|]. split; by intros ->.
Qed.

(** C9, as amended.  Every call of [configIface] with a non-empty explicit
    [intfName] raises before a handle is constructed: the local holding the
    canonical name is never assigned, the calls made before the failure
    register no interface, and the result depends neither on the name
    supplied nor on the handle class.  The exception is the unbound-local
    error when the lookups that come first succeed (the node has a first
    radio and a first address, [panid] was passed), and the [KeyError] or
    [IndexError] of the failing lookup otherwise. *)
Theorem configIface_explicit_name_fails (nd : Node) (port intfName addr : PyVal)
    (cls : option Constructor) (params : gmap string PyVal) (e : Env) :
  truthy intfName = true →
  ∃ x evs w',
    configIface nd port intfName addr cls params e
    = (Raise x, (w', (e.2 ++ evs)%list))
    ∧ Forall no_handle_event evs
    ∧ (reaches_naming nd params → x = UnboundLocalError)
    ∧ (¬ reaches_naming nd params → x = KeyError ∨ x = IndexError)
    ∧ (∀ intfName' cls', truthy intfName' = true →
         configIface nd port intfName' addr cls' params e
         = configIface nd port intfName addr cls params e).
Proof.
  intros Hname. unfold configIface, reaches_naming, node_cmd. simpl.
  destruct (nd_wlan nd !! 0%nat) as [wlan0|] eqn:Ewlan.
  2:{ eexists _, _, _. split; [reflexivity|]. split; [repeat constructor|].
      split; [intros ([? ?] & _); done|]. split; [auto|].
      intros intfName' cls' _. done. }
  destruct (params !! "panid") as [panid|] eqn:Epan.
  2:{ eexists _, _, _. split; [rewrite <- !app_assoc; reflexivity|].
      split; [repeat constructor|].
      split; [intros (_ & [? ?] & _); done|]. split; [auto|].
      intros intfName' cls' _. done. }
  set (params1 := match port with
                  | VNone => params
                  | _ => <["port":=port]> params
                  end).
  destruct (params1 !! "port") as [p|] eqn:Eport; simpl; rewrite Hname;
    destruct (nd_ip nd !! 0%nat) as [ip0|] eqn:Eip;
    (eexists _, _, _; split; [rewrite <- !app_assoc; reflexivity|];
     split; [repeat constructor|];
     split; [try done; intros (_ & _ & [? ?]); done|];
     split; [try (by right); intros []; eauto|];
     intros intfName' cls' ->; done).
Qed.

End Handle.

Lemma setIP_without_prefix_fails_witness :
  setIP (VStr "2001::1") VNone (on_handle (handle "sensor1-lowpan" (Some mote)))
  = (Raise (NoPrefixLength (VStr "2001::1")),
     on_handle (handle "sensor1-lowpan" (Some mote))).
Proof.
  apply (@setIP_without_prefix_fails silent_host
           (on_handle (handle "sensor1-lowpan" (Some mote))) "2001::1").
  reflexivity.
Defined.

Lemma isUp_setUp_empty_means_ok_witness :
  ∃ s', isUp (VBool true) (on_handle (handle "sensor1-lowpan" (Some mote)))
        = (Return (VBool true), s').
Proof.
  destruct (@isUp_setUp_empty_means_ok silent_host
              (on_handle (handle "sensor1-lowpan" (Some mote))) mote
              eq_refl) as (s' & Hrun & _).
  exists s'. exact Hrun.
Defined.

Lemma update_total_on_any_output_witness :
  ∃ s', updateIP (on_handle (handle "sensor1-lowpan" (Some mote)))
        = (Return VNone, s')
        ∧ ip (self s') = VNone.
Proof.
  destruct (proj1 (@update_total_on_any_output silent_host
                     (on_handle (handle "sensor1-lowpan" (Some mote))) mote
                     eq_refl)) as (s' & _ & _ & Hnone).
  exists s'. apply Hnone. reflexivity.
Defined.

(** C10 as stated fails for [updateAddr]: on an output in which neither
    pattern finds a match it returns the pair [(None, None)], not [None]. *)
Lemma updateAddr_returns_pair :
  findall match_ip 0 "" = [] ∧ findall match_mac 0 "" = []
  ∧ (updateAddr (on_handle (handle "sensor1-lowpan" (Some mote)))).1
    = Return (VTuple [VNone; VNone])
  ∧ (updateAddr (on_handle (handle "sensor1-lowpan" (Some mote)))).1
    ≠ Return VNone.
Proof. repeat split; done. Qed.

Lemma configIface_explicit_name_fails_witness :
  (@configIface silent_host mote VNone (VStr "wpan9") VNone None
     {["panid" := VStr "0xbeef"]} ((), [])).1
  = Raise UnboundLocalError.
Proof.
  destruct (@configIface_explicit_name_fails silent_host mote VNone
              (VStr "wpan9") VNone None {["panid" := VStr "0xbeef"]} ((), [])
              eq_refl) as (x & evs & w' & Hrun & _ & Hx & _).
  rewrite Hrun. simpl. f_equal. apply Hx.
  unfold reaches_naming, mote. simpl.
  split; [by eexists|]. split; [by eexists|by eexists].
Defined.

(** C9 as stated fails: a call with an explicit name and no [panid] raises
    [KeyError], from the lookup of [panid], and not the unbound-local
    error. *)
Lemma configIface_without_panid_raises_KeyError :
  truthy (VStr "wpan9") = true
  ∧ (@configIface silent_host mote VNone (VStr "wpan9") VNone None ∅ ((), [])).1
    = Raise KeyError
  ∧ (@configIface silent_host mote VNone (VStr "wpan9") VNone None ∅ ((), [])).1
    ≠ Raise UnboundLocalError.
Proof. repeat split; done. Qed.

Lemma lo_construction_loses_loopback_witness :
  match (@IntfSixLoWPAN silent_host (VStr "lo") (Some mote) VNone VNone VNone
           {["ip" := VStr "127.0.0.1/8"]} () []).1 with
  | Return i => prefixLen i ≠ VInt 8
  | Raise _ => False
  end.
Proof.
  destruct (@IntfSixLoWPAN silent_host (VStr "lo") (Some mote) VNone VNone
              VNone {["ip" := VStr "127.0.0.1/8"]} () [])
    as [[i|x] s'] eqn:E; simpl.
  - exact (proj2 (@lo_construction_loses_loopback silent_host)
             _ _ _ _ _ _ _ _ _ E).
  - vm_compute in E. discriminate E.
Defined.

End LinkProps.

(** * Strings, as the listings are read *)

Module PyProps.
Import Py.

Lemma append_cons (c : ascii) (a b : string) :
  String c a +:+ b = String c (a +:+ b).
Proof. done. Qed.

Lemma length_app_string (a b : string) :
  String.length (a +:+ b) = (String.length a + String.length b)%nat.
Proof.
  induction a as [|c a IH]; [done|]. rewrite append_cons. simpl. by rewrite IH.
Qed.

Lemma append_empty_r (a : string) : a = a +:+ "".
Proof. induction a as [|c a IH]; [done|]. rewrite append_cons. by f_equal. Qed.

Lemma append_assoc (a b c : string) : (a +:+ b) +:+ c = a +:+ (b +:+ c).
Proof.
  induction a as [|ch a IH]; [done|]. rewrite !append_cons. by rewrite IH.
Qed.

Lemma split_not_nil (c : ascii) (s : string) : split c s ≠ [].
Proof. destruct s as [|c' s]; simpl; [done|]. repeat case_match; done. Qed.

Lemma split_no_sep (c : ascii) (s : string) :
  contains_char c s = false → split c s = [s].
Proof.
  induction s as [|c' s IH]; simpl; [done|].
  destruct (Ascii.eqb c' c); [done|]. intros Hs. by rewrite IH.
Qed.

Lemma split_app_sep (c : ascii) (a rest : string) :
  contains_char c a = false →
  split c (a +:+ String c rest) = a :: split c rest.
Proof.
  induction a as [|c' a IH].
  - intros _. change (EmptyString +:+ ?x) with x. simpl.
    by rewrite Ascii.eqb_refl.
  - rewrite append_cons. simpl. destruct (Ascii.eqb c' c); [done|].
    intros Ha. by rewrite IH.
Qed.

Lemma contains_char_app (c : ascii) (a b : string) :
  contains_char c (a +:+ b) = contains_char c a || contains_char c b.
Proof.
  induction a as [|c' a IH]; [done|]. rewrite append_cons. simpl.
  by destruct (Ascii.eqb c' c).
Qed.

Lemma split_length_app_sep (c : ascii) (a rest : string) :
  length (split c (a +:+ String c rest))
  = (length (split c a) + length (split c rest))%nat.
Proof.
  induction a as [|c' a IH].
  - change (EmptyString +:+ ?x) with x. simpl. by rewrite Ascii.eqb_refl.
  - rewrite append_cons. simpl. destruct (Ascii.eqb c' c); simpl.
    + by rewrite IH.
    + pose proof (split_not_nil c (a +:+ String c rest)) as H1.
      pose proof (split_not_nil c a) as H2.
      destruct (split c (a +:+ String c rest)), (split c a); simpl in *;
        try done.
Qed.

Lemma split_one_sep (c : ascii) (a p : string) :
  contains_char c a = false → contains_char c p = false →
  split c (a +:+ String c p) = [a; p].
Proof. intros Ha Hp. by rewrite split_app_sep, split_no_sep. Qed.

(** Python's [sub in s]: [sub] occurs somewhere in [s]. *)
Lemma contains_substring (sub s : string) :
  contains sub s = true ↔ ∃ pre post, s = pre +:+ sub +:+ post.
Proof.
  induction s as [|c s IH].
  - cbn [contains]. destruct (String.prefix sub "") eqn:E.
    + split; [|done]. intros _.
      apply WifiModuleProps.prefix_app in E as [r Hr].
      exists "", r. exact Hr.
    + split; [done|]. intros (pre & post & Hs).
      destruct pre; [|done]. change ("" +:+ ?x) with x in Hs.
      assert (String.prefix sub "" = true)
        by (apply WifiModuleProps.prefix_app; eauto).
      congruence.
  - cbn [contains]. destruct (String.prefix sub (String c s)) eqn:E.
    + split; [|done]. intros _.
      apply WifiModuleProps.prefix_app in E as [r Hr].
      exists "", r. exact Hr.
    + rewrite IH. split.
      * intros (pre & post & ->). by exists (String c pre), post.
      * intros (pre & post & Hs). destruct pre as [|c' pre].
        -- change ("" +:+ ?x) with x in Hs.
           assert (String.prefix sub (String c s) = true)
             by (apply WifiModuleProps.prefix_app; eauto).
           congruence.
        -- rewrite append_cons in Hs. injection Hs as -> ->. eauto.
Qed.

(** Splitting a listing at the newlines gives its lines and what follows
    the last newline. *)
Lemma split_lines (l : list string) (last : string) :
  Forall (λ x, contains_char newline x = false) l →
  contains_char newline last = false →
  split newline (lines l +:+ last) = l ++ [last].
Proof.
  intros Hl Hlast. induction Hl as [|x l Hx Hl IH]; simpl.
  - change ("" +:+ last) with last. by apply split_no_sep.
  - rewrite append_assoc, append_cons.
    rewrite split_app_sep by done. by rewrite IH.
Qed.

End PyProps.

(** * More on the interface handles *)

Module LinkFacts.
Import Link.
Import PyProps.

Set Warnings "-clear-no-such-hyp".

Section Handle.
Context `{Host}.

(** ** Setting the address *)

Lemma setIP_slash_run (s : State) (nd : Node) (a p : string) (q : PyVal) :
  node (self s) = Some nd →
  contains_char "/" a = false → contains_char "/" p = false →
  let ipstr := a +:+ String "/" p in
  let flush := [Lit "ip addr flush "; Val (name (self s))] in
  let add := [Lit "ip -6 addr add "; Val (VStr ipstr); Lit "dev";
              Val (name (self s))] in
  ∃ s',
    setIP (VStr ipstr) q s
    = (Return (VStr (cmd_output (run (world s) (Cmd (nd_name nd) flush))
                       (nd_name nd) add)), s')
    ∧ self s' = with_address (self s) (VStr a) (VStr p)
    ∧ trace s' = trace s ++ [Cmd (nd_name nd) flush; Cmd (nd_name nd) add].
Proof.
  intros Hnode Ha Hp ipstr flush add.
  unfold setIP, in_slash, split_slash, lift.
  unfold mbind at 1. unfold M_bind at 1.
  assert (contains_char "/" ipstr = true) as ->.
  { unfold ipstr. rewrite contains_char_app. simpl. by rewrite orb_true_r. }
  unfold mbind at 1. unfold M_bind at 1.
  unfold ipstr at 1. rewrite split_one_sep by done.
  unfold set_ip_prefixLen, ipAddr, cmd, put_self, get_self, mbind, M_bind,
    mret, M_ret. simpl. rewrite Hnode. simpl.
  eexists. split; [reflexivity|]. simpl.
  rewrite <- app_assoc. split; [|done].
  unfold with_address. by rewrite Hnode.
Qed.

(** X1. [setIP] on a string with one slash, [a/p], on a handle that has a
    node: the handle records [a] as its address and [p], a string, as its
    prefix length, whatever [prefixLen] argument came with the call; the
    node runs the flush and then the add of the whole string; the call
    returns what the add printed; and [IP()] then returns [a]. *)
Theorem setIP_with_prefix_in_string (s : State) (nd : Node) (a p : string)
    (q : PyVal) :
  node (self s) = Some nd →
  contains_char "/" a = false → contains_char "/" p = false →
  let ipstr := a +:+ String "/" p in
  let flush := [Lit "ip addr flush "; Val (name (self s))] in
  let add := [Lit "ip -6 addr add "; Val (VStr ipstr); Lit "dev";
              Val (name (self s))] in
  ∃ s',
    setIP (VStr ipstr) q s
    = (Return (VStr (cmd_output (run (world s) (Cmd (nd_name nd) flush))
                       (nd_name nd) add)), s')
    ∧ ip (self s') = VStr a
    ∧ prefixLen (self s') = VStr p
    ∧ trace s' = trace s ++ [Cmd (nd_name nd) flush; Cmd (nd_name nd) add]
    ∧ IP s' = (Return (VStr a), s').
Proof.
  intros Hnode Ha Hp ipstr flush add.
  destruct (setIP_slash_run s nd a p q Hnode Ha Hp) as (s' & Hrun & Hself & Htr).
  exists s'. split; [exact Hrun|].
  unfold IP, get_self, mbind, M_bind, mret, M_ret. rewrite Hself. done.
Qed.

(** X2. [setIP] on a string with two slashes or more raises [ValueError],
    from the unpacking of the split, before any command runs and before the
    handle changes: with or without a node, whatever the [prefixLen]
    argument. *)
Theorem setIP_two_slashes_ValueError (s : State) (a b rest : string)
    (q : PyVal) :
  setIP (VStr (a +:+ String "/" (b +:+ String "/" rest))) q s
  = (Raise ValueError, s).
Proof.
  unfold setIP, in_slash, split_slash, lift.
  unfold mbind at 1. unfold M_bind at 1.
  rewrite contains_char_app. simpl. rewrite orb_true_r.
  unfold mbind at 1. unfold M_bind at 1.
  pose proof (split_length_app_sep "/" a (b +:+ String "/" rest)) as Hlen.
  rewrite (split_length_app_sep "/" b rest) in Hlen.
  assert (2 < length (split "/" (a +:+ String "/" (b +:+ String "/" rest))))%nat
    as Hparts.
  { pose proof (split_not_nil "/" a). pose proof (split_not_nil "/" b).
    pose proof (split_not_nil "/" rest). rewrite Hlen.
    destruct (split "/" a), (split "/" b), (split "/" rest); try done.
    simpl. lia. }
  destruct (split "/" _) as [|x [|y [|z t]]]; simpl in Hparts; try lia; done.
Qed.

(** X3. [setIP] on a string without a slash and with a [prefixLen] that is
    not [None], on a handle that has a node: the handle records the string
    and the prefix length as given, and the node runs the flush and then the
    add of the two joined by a slash. *)
Theorem setIP_with_explicit_prefix (s : State) (nd : Node) (ipstr : string)
    (q : PyVal) :
  node (self s) = Some nd →
  contains_char "/" ipstr = false → q ≠ VNone →
  let flush := [Lit "ip addr flush "; Val (name (self s))] in
  let add := [Lit "ip -6 addr add "; Fmt2 (VStr ipstr) q; Lit "dev";
              Val (name (self s))] in
  ∃ s',
    setIP (VStr ipstr) q s
    = (Return (VStr (cmd_output (run (world s) (Cmd (nd_name nd) flush))
                       (nd_name nd) add)), s')
    ∧ ip (self s') = VStr ipstr
    ∧ prefixLen (self s') = q
    ∧ trace s' = trace s ++ [Cmd (nd_name nd) flush; Cmd (nd_name nd) add].
Proof.
  intros Hnode Hno Hq flush add.
  unfold setIP, in_slash, lift.
  unfold mbind at 1. unfold M_bind at 1. rewrite Hno.
  destruct q; try done; LinkProps.run_method;
    (eexists; split; [reflexivity|]); simpl; rewrite <- app_assoc; done.
Qed.

(** Without a node [setIP] raises, and logs nothing. *)
Lemma setIP_needs_node v q s :
  node (self s) = None →
  ∃ x s', setIP v q s = (Raise x, s') ∧ trace s' = trace s.
Proof.
  intros Hnode. unfold setIP, in_slash, split_slash.
  destruct v, q; LinkProps.run_method; eauto.
Qed.

(** X4. Constructing a handle with the default [node=None] never gives a
    handle: whatever the name, port, link, address and keywords, the
    constructor raises, and nothing was logged by then (no interface added,
    no command run). *)
Theorem construction_needs_node (nm port lnk addr : PyVal)
    (kw : gmap string PyVal) (w : World) (tr : list Event) :
  ∃ x s', IntfSixLoWPAN nm None port lnk addr kw w tr = (Raise x, s')
          ∧ trace s' = tr.
Proof.
  unfold IntfSixLoWPAN, init, config_kw, config.
  unfold mbind at 1. unfold M_bind at 1. unfold get_self at 1.
  unfold mbind at 1. unfold M_bind at 1.
  set (s0 := {| self := _; world := w; trace := tr |}).
  assert (∃ s1, (match name (self s0) with
                 | VStr "lo" => set_ip_prefixLen (VStr "127.0.0.1") (VInt 8)
                 | _ => mret ()
                 end) s0 = (Return (), s1)
                ∧ node (self s1) = None ∧ trace s1 = tr) as (s1 & -> & Hn & Ht).
  { destruct (name (self s0)) as [| | |str| | |];
      try (eexists; split; [reflexivity|done]).
    destruct (decide (str = "lo")) as [->|Hne].
    - eexists. split; [reflexivity|done].
    - assert (∀ (A : Type) (x y : A),
                match str with "lo" => x | _ => y end = y) as Hm.
      { intros A x y. repeat (case_match; try done). }
      rewrite Hm. eexists. split; [reflexivity|done]. }
  unfold mbind at 1. unfold M_bind at 1. unfold mret at 1. unfold M_ret at 1.
  unfold mbind at 1. unfold M_bind at 1.
  unfold set_params, put_self, get_self, mbind, M_bind. simpl.
  match goal with |- context [setIP ?v ?q ?s] =>
    destruct (setIP_needs_node v q s) as (x & s' & -> & Htr); [done|] end.
  simpl in *. eexists _, _. split; [reflexivity|]. by rewrite Htr.
Qed.

(** ** [config] *)

(** What [setParam] does to the results: nothing for [None], one entry
    under the parameter's name otherwise. *)
Lemma setParam_results r f nm v s x r' s' :
  setParam r f nm v s = (Return (x, r'), s') →
  (v = VNone ∧ r' = r ∧ s' = s) ∨ (v ≠ VNone ∧ r' = <[nm := x]> r).
Proof.
  unfold setParam. destruct v; unfold mbind, M_bind, mret, M_ret;
    try (intros [= <- <- <-]; by left);
    repeat case_match; intros; simplify_eq/=; by right.
Qed.

(** X5. The dictionary a returning [config] gives has an entry under [ip]
    always, and under [mac], [up] and [ipAddr] exactly for those of the
    three arguments that are not [None]; it has no other key. *)
Theorem config_result_keys (addr ip0 ipAddr0 up : PyVal) (s s' : State)
    (r : gmap string PyVal) :
  config addr ip0 ipAddr0 up s = (Return r, s') →
  ∀ k, is_Some (r !! k) ↔
       k = "ip" ∨ (k = "mac" ∧ addr ≠ VNone) ∨ (k = "up" ∧ up ≠ VNone)
       ∨ (k = "ipAddr" ∧ ipAddr0 ≠ VNone).
Proof.
  unfold config. unfold mbind at 1. unfold M_bind at 1.
  destruct (setIP ip0 VNone s) as [[v0|] s0] eqn:E0; [|done].
  apply LinkProps.setIP_None_str in E0 as [[str ->] _].
  unfold mbind at 1. unfold M_bind at 1.
  destruct (setParam ∅ SetMAC "mac" addr s0) as [[[v1 r1]|] s1] eqn:E1; [|done].
  unfold mbind at 1. unfold M_bind at 1.
  destruct (setParam r1 SetIP "ip" (VStr str) s1)
    as [[[v2 r2]|] s2] eqn:E2; [|done].
  unfold mbind at 1. unfold M_bind at 1.
  destruct (setParam r2 IsUp "up" up s2) as [[[v3 r3]|] s3] eqn:E3; [|done].
  unfold mbind at 1. unfold M_bind at 1.
  destruct (setParam r3 IpAddr "ipAddr" ipAddr0 s3)
    as [[[v4 r4]|] s4] eqn:E4; [|done].
  intros [= <- <-] k.
  apply setParam_results in E1, E2, E3, E4.
  destruct E2 as [[? _]|[_ ->]]; [done|].
  destruct E1 as [(-> & -> & _)|[Hm ->]], E3 as [(-> & -> & _)|[Hu ->]],
    E4 as [(-> & -> & _)|[Ha ->]];
    rewrite ?lookup_insert_is_Some', ?lookup_empty, ?is_Some_alt;
    naive_solver.
Qed.

Lemma config_ip_run (s : State) (nd : Node) (a p : string) :
  node (self s) = Some nd →
  contains_char "/" a = false → contains_char "/" p = false →
  let ipstr := a +:+ String "/" p in
  let nm := name (self s) in
  let flush := Cmd (nd_name nd) [Lit "ip addr flush "; Val nm] in
  let add := Cmd (nd_name nd)
               [Lit "ip -6 addr add "; Val (VStr ipstr); Lit "dev"; Val nm] in
  let up := Cmd (nd_name nd) [Lit "ip link set"; Val nm; Lit "up"] in
  ∃ r s' out ok,
    config VNone (VStr ipstr) VNone (VBool true) s = (Return r, s')
    ∧ r = {["ip" := VStr out; "up" := VBool ok]}
    ∧ trace s' = trace s ++ [flush; add; flush; add; up]
    ∧ self s' = with_address (self s) (VStr a) (VStr p).
Proof.
  intros Hnode Ha Hp ipstr nm flush add up.
  destruct (setIP_slash_run s nd a p VNone Hnode Ha Hp)
    as (s1 & E1 & S1 & T1).
  assert (node (self s1) = Some nd) as N1 by (by rewrite S1).
  destruct (setIP_slash_run s1 nd a p VNone N1 Ha Hp)
    as (s2 & E2 & S2 & T2).
  assert (name (self s1) = nm) as M1 by (by rewrite S1).
  rewrite M1 in E2, T2.
  assert (self s2 = with_address (self s) (VStr a) (VStr p)) as S2'
    by (by rewrite S2, S1).
  unfold config. unfold mbind at 1. unfold M_bind at 1.
  fold ipstr in E1, E2. rewrite E1.
  unfold mbind at 1. unfold M_bind at 1.
  unfold setParam at 1. unfold mret at 1. unfold M_ret at 1.
  unfold mbind at 1. unfold M_bind at 1.
  unfold setParam at 1. unfold call_args.
  unfold mbind at 1. unfold M_bind at 1. rewrite E2.
  unfold mret at 1. unfold M_ret at 1.
  unfold setParam, call_args, isUp, ipLink, cmd, get_self, mbind, M_bind,
    mret, M_ret.
  cbn [truthy]. rewrite S2'. cbn [with_address node name]. rewrite Hnode.
  cbn [truthy].
  match goal with |- context [negb ?b] => destruct b end; cbn [negb];
    (eexists _, _, _, _; split; [reflexivity|]; split; [reflexivity|];
     cbn [trace self]; rewrite T2, T1, <- !app_assoc; done).
Qed.

(** X6. [config(ip=a/p, up=True)], the call the constructor makes when it is
    given an address and nothing else, on a handle that has a node: the
    address is set twice, so that the node runs flush, add, flush, add and
    then the link-up; the result has the two keys [ip] and [up]; the handle
    ends with address [a] and prefix length [p], its MAC address as it
    was. *)
Theorem config_sets_ip_twice (s : State) (nd : Node) (a p : string) :
  node (self s) = Some nd →
  contains_char "/" a = false → contains_char "/" p = false →
  let ipstr := a +:+ String "/" p in
  let nm := name (self s) in
  let flush := Cmd (nd_name nd) [Lit "ip addr flush "; Val nm] in
  let add := Cmd (nd_name nd)
               [Lit "ip -6 addr add "; Val (VStr ipstr); Lit "dev"; Val nm] in
  let up := Cmd (nd_name nd) [Lit "ip link set"; Val nm; Lit "up"] in
  ∃ r s' out ok,
    config VNone (VStr ipstr) VNone (VBool true) s = (Return r, s')
    ∧ r = {["ip" := VStr out; "up" := VBool ok]}
    ∧ trace s' = trace s ++ [flush; add; flush; add; up]
    ∧ ip (self s') = VStr a ∧ prefixLen (self s') = VStr p
    ∧ mac (self s') = mac (self s).
Proof.
  intros Hnode Ha Hp ipstr nm flush add up.
  destruct (config_ip_run s nd a p Hnode Ha Hp)
    as (r & s' & out & ok & Hrun & Hr & Htr & Hself).
  exists r, s', out, ok. rewrite Hself. done.
Qed.

(** ** Queries *)

(** X7. [isUp] with a false [setUp], on a handle that has a node, runs the
    one command [ip addr show <name>], leaves the handle as it was, and
    returns [True] exactly when the text [UP] occurs somewhere in what the
    command printed. *)
Theorem isUp_query_looks_for_UP (s : State) (nd : Node) (setUp : PyVal) :
  node (self s) = Some nd → truthy setUp = false →
  let show := [Lit "ip addr show"; Val (name (self s))] in
  let out := cmd_output (world s) (nd_name nd) show in
  ∃ s' b,
    isUp setUp s = (Return (VBool b), s')
    ∧ (b = true ↔ ∃ pre post, out = pre +:+ "UP" +:+ post)
    ∧ self s' = self s
    ∧ trace s' = trace s ++ [Cmd (nd_name nd) show].
Proof.
  intros Hnode Hset show out. unfold isUp. rewrite Hset.
  LinkProps.run_method. eexists _, _. split; [reflexivity|].
  split; [apply contains_substring|]. split; [by destruct s as [[]]|done].
Qed.

(** X8. [rename], on a handle that has a node: the node takes the link down
    under the old name, renames it, and brings it up under the new name, in
    that order; the call returns what the rename printed; the handle ends
    with the new name, and is unchanged when the new name is the old
    one. *)
Theorem rename_moves_the_name (s : State) (nd : Node) (newname : PyVal) :
  node (self s) = Some nd →
  let old := name (self s) in
  let down := Cmd (nd_name nd) [Lit "ip link set"; Val old; Lit "down"] in
  let move := [Lit "ip link set"; Val old; Lit "name"; Val newname] in
  let up := Cmd (nd_name nd) [Lit "ip link set"; Val newname; Lit "up"] in
  ∃ s',
    rename newname s
    = (Return (VStr (cmd_output (run (world s) down) (nd_name nd) move)), s')
    ∧ name (self s') = newname
    ∧ trace s' = trace s ++ [down; Cmd (nd_name nd) move; up]
    ∧ (newname = old → self s' = self s).
Proof.
  intros Hnode old down move up. unfold rename, set_name.
  LinkProps.run_method. eexists. split; [reflexivity|]. simpl.
  split; [done|]. split; [by rewrite <- !app_assoc|].
  intros ->. unfold old.
  match goal with Hn : node (self s) = Some nd |- _ => rewrite <- Hn end.
  by destruct s as [[]].
Qed.

(** X9. [status], on a handle that has a node and a string for a name,
    returns ["OK"] or ["MISSING"], and ["OK"] exactly when the name occurs
    somewhere in what [ip link show] printed, be it as part of a longer
    name; the handle stays as it was. *)
Theorem status_is_a_substring_test (s : State) (nd : Node) (nm : string) :
  node (self s) = Some nd → name (self s) = VStr nm →
  let links := pexec_output (world s) (nd_name nd) [Lit "ip link show"] in
  ∃ s' answer,
    status s = (Return (VStr answer), s')
    ∧ (answer = "OK" ∨ answer = "MISSING")
    ∧ (answer = "OK" ↔ ∃ pre post, links = pre +:+ nm +:+ post)
    ∧ self s' = self s.
Proof.
  intros Hnode Hname links.
  unfold status, pexec, get_self, mbind, M_bind, mret, M_ret.
  rewrite Hnode. simpl. rewrite Hname. fold links.
  destruct (contains nm links) eqn:E.
  - eexists _, _. split; [reflexivity|]. split; [by left|].
    split; [|by destruct s as [[]]].
    split; [intros _; by apply contains_substring|done].
  - eexists _, _. split; [reflexivity|]. split; [by right|].
    split; [|by destruct s as [[]]].
    split; [done|]. intros Hsub. apply contains_substring in Hsub.
    congruence.
Qed.

End Handle.

(** ** The two patterns *)

Lemma span_digits_app (s : string) :
  s = (span_digits s).1 +:+ (span_digits s).2.
Proof.
  induction s as [|c s IH]; simpl; [done|].
  destruct (is_digit c); [|done].
  destruct (span_digits s) as [ds rest]. simpl in *.
  rewrite append_cons. by f_equal.
Qed.

Lemma digits_dot_has_dot (s m rest : string) :
  digits_dot s = Some (m, rest) → contains_char "." s = true.
Proof.
  unfold digits_dot. pose proof (span_digits_app s) as Hs.
  destruct (span_digits s) as [ds r]. simpl in Hs.
  destruct ds as [|d ds]; [done|]. destruct r as [|c r]; [done|].
  destruct (Ascii.eqb_spec c ".") as [->|Hne].
  - intros _. rewrite Hs, contains_char_app. simpl. by rewrite orb_true_r.
  - assert (∀ A (x y : A),
              match c with "."%char => x | _ => y end = y) as Hm.
    { intros A x y. destruct c as [[] [] [] [] [] [] [] []]; try done. }
    rewrite Hm. done.
Qed.

Lemma findall_ip_no_dot (k : nat) (s : string) :
  contains_char "." s = false → findall match_ip k s = [].
Proof.
  revert k. induction s as [|c s IH]; intros k Hs; [done|].
  assert (contains_char "." s = false) as Hs'.
  { simpl in Hs. by destruct (Ascii.eqb c "."). }
  cbn [findall]. destruct k as [|k]; [|by apply IH].
  assert (match_ip (String c s) = None) as ->; [|by apply IH].
  unfold match_ip. destruct (digits_dot (String c s)) as [[m r]|] eqn:E;
    [|done].
  apply digits_dot_has_dot in E. congruence.
Qed.

Lemma match_pats_shape (ps : list Pat) (s x : string) :
  match_pats ps s = Some x →
  String.length x = length ps
  ∧ (∃ rest, s = x +:+ rest)
  ∧ ∀ i, ps !! i = Some Colon → String.get i x = Some ":"%char.
Proof.
  revert s x. induction ps as [|p ps IH]; intros s x; simpl.
  - intros [= <-]. split; [done|]. split; [by exists s|]. intros i Hi.
    by rewrite lookup_nil in Hi.
  - destruct s as [|c s]; [done|]. destruct (pat_ok p c) eqn:Ep; [|done].
    destruct (match_pats ps s) as [y|] eqn:E; [|done]. simpl.
    intros [= <-]. destruct (IH _ _ E) as (Hlen & [rest ->] & Hcol).
    split; [simpl; by rewrite Hlen|]. split; [by exists rest|].
    intros [|i] Hi; simpl in *.
    + injection Hi as ->. simpl in Ep. by apply Ascii.eqb_eq in Ep as ->.
    + by apply Hcol.
Qed.

Lemma findall_found (m : string → option string) (k : nat) (s x : string) :
  x ∈ findall m k s → ∃ pre post, s = pre +:+ post ∧ m post = Some x.
Proof.
  revert k. induction s as [|c s IH]; intros k; cbn [findall].
  - intros Hx. by apply elem_of_nil in Hx.
  - assert (∀ k, x ∈ findall m k s →
              ∃ pre post, String c s = pre +:+ post ∧ m post = Some x) as Hrec.
    { intros k' Hx. destruct (IH _ Hx) as (pre & post & -> & Hm).
      by exists (String c pre), post. }
    destruct k as [|k]; [|by apply Hrec].
    destruct (m (String c s)) as [found|] eqn:E; [|by apply Hrec].
    intros [->|Hx]%elem_of_cons; [|by eapply Hrec].
    by exists "", (String c s).
Qed.

Section Updates.
Context `{Host}.

(** X10. [updateIP], on a handle that has a node: when what
    [ip addr show <name>] printed holds no dot, as when the device has IPv6
    addresses only, the call returns [None] and the handle's address
    becomes [None], whatever it was. *)
Theorem updateIP_needs_a_dotted_quad (s : State) (nd : Node) :
  node (self s) = Some nd →
  contains_char "." (pexec_output (world s) (nd_name nd)
                       [Lit "ip addr show "; Val (name (self s))]) = false →
  ∃ s', updateIP s = (Return VNone, s') ∧ ip (self s') = VNone.
Proof.
  intros Hnode Hdot.
  unfold updateIP, pexec, set_ip, put_self, get_self, mbind, M_bind,
    mret, M_ret. simpl. rewrite Hnode. simpl.
  rewrite findall_ip_no_dot by done. eexists. split; reflexivity.
Qed.

(** X11. [updateMAC], on a handle that has a node, returns what it stores
    as the handle's MAC address, and that is [None] or a piece of what
    [ip addr show <name>] printed that is 17 characters long with colons at
    the positions 2, 5, 8, 11 and 14. *)
Theorem updateMAC_result_shape (s : State) (nd : Node) :
  node (self s) = Some nd →
  let listed := cmd_output (world s) (nd_name nd)
                  [Lit "ip addr show"; Val (name (self s))] in
  ∃ s' v,
    updateMAC s = (Return v, s')
    ∧ mac (self s') = v
    ∧ (v = VNone
       ∨ ∃ m, v = VStr m
              ∧ String.length m = 17%nat
              ∧ (∃ pre post, listed = pre +:+ m +:+ post)
              ∧ Forall (λ i, String.get i m = Some ":"%char)
                  [2; 5; 8; 11; 14]%nat).
Proof.
  intros Hnode listed.
  unfold updateMAC, ipAddr, cmd, set_mac, put_self, get_self, mbind, M_bind,
    mret, M_ret. simpl. rewrite Hnode. simpl. fold listed.
  eexists _, _. split; [reflexivity|]. split; [done|].
  destruct (findall match_mac 0 listed) as [|m l] eqn:E; [by left|right].
  exists m. split; [done|].
  assert (m ∈ findall match_mac 0 listed) as Hin by (rewrite E; left).
  apply findall_found in Hin as (pre & post & Hl & Hm).
  apply match_pats_shape in Hm as (Hlen & [rest ->] & Hcol).
  split; [done|]. split; [by exists pre, rest|].
  repeat constructor; by apply Hcol.
Qed.

End Updates.

(** ** [configIface] *)

Section Establish.
Context `{Host}.

(** X12. [configIface] without an interface name, on a node with a radio
    and an address, with [panid] and [mac] among the keywords: the six
    preparing commands run, and then the call of the handle class raises
    [TypeError], [mac] being given twice; no handle is constructed, and
    nothing a handle would log is logged. *)
Theorem configIface_mac_keyword_TypeError (nd : Node)
    (port intfName addr panid : PyVal) (wlan0 ip0 : string)
    (kw : gmap string PyVal) (e : Env) :
  truthy intfName = false →
  nd_wlan nd !! 0%nat = Some wlan0 → nd_ip nd !! 0%nat = Some ip0 →
  kw !! "panid" = Some panid → is_Some (kw !! "mac") →
  ∃ w' evs,
    configIface nd port intfName addr None kw e
    = (Raise TypeError, (w', (e.2 ++ prepare nd wlan0 panid ++ evs)%list))
    ∧ Forall no_handle_event evs.
Proof.
  intros Hname Hwlan Hip Hpan [m Hmac].
  unfold configIface, node_cmd. simpl. rewrite Hwlan, Hpan, Hname, Hip.
  set (params1 := match port with
                  | VNone => kw
                  | _ => <["port":=port]> kw
                  end).
  assert (params1 !! "mac" = Some m) as Hmac1.
  { unfold params1. destruct port; by simplify_map_eq. }
  unfold IntfSixLoWPAN_cls.
  destruct (params1 !! "port") as [p|] eqn:Eport; simpl.
  - rewrite bool_decide_eq_true_2 by (right; by simplify_map_eq).
    eexists _, _. split; [rewrite <- !app_assoc; reflexivity|].
    repeat constructor.
  - rewrite bool_decide_eq_true_2 by (right; by simplify_map_eq).
    eexists _, _. split; [rewrite <- !app_assoc; reflexivity|].
    repeat constructor.
Qed.

Lemma not_lo_match {A} (str : string) (x y : A) :
  str ≠ "lo" → match str with "lo" => x | _ => y end = y.
Proof. intros Hne. repeat (case_match; try done). Qed.

Lemma construct_with_ip (nm : string) (nd : Node) (port lnk addr : PyVal)
    (kw : gmap string PyVal) (w : World) (tr : list Event) (a p : string) :
  nm ≠ "lo" →
  kw !! "ip" = Some (VStr (a +:+ String "/" p)) →
  kw !! "mac" = None → kw !! "ipAddr" = None →
  kw !! "up" = None → kw !! "moveIntfFn" = None →
  contains_char "/" a = false → contains_char "/" p = false →
  let flush := Cmd (nd_name nd) [Lit "ip addr flush "; Val (VStr nm)] in
  let add := Cmd (nd_name nd)
               [Lit "ip -6 addr add "; Val (VStr (a +:+ String "/" p));
                Lit "dev"; Val (VStr nm)] in
  ∃ s',
    IntfSixLoWPAN (VStr nm) (Some nd) port lnk addr kw w tr
    = (Return {| node := Some nd; name := VStr nm; link := lnk; mac := addr;
                 ip := VStr a; prefixLen := VStr p; params := kw |}, s')
    ∧ trace s' = tr ++ [AddIntf (nd_name nd) (VStr nm) port VNone;
                        flush; add; flush; add;
                        Cmd (nd_name nd)
                          [Lit "ip link set"; Val (VStr nm); Lit "up"]].
Proof.
  intros Hlo Hip Hmac HipAddr Hup Hmove Ha Hp flush add.
  unfold IntfSixLoWPAN, init, config_kw.
  unfold mbind at 1. unfold M_bind at 1. unfold get_self at 1.
  cbn [self name]. rewrite not_lo_match by done.
  unfold mbind at 1. unfold M_bind at 1. unfold mret at 1. unfold M_ret at 1.
  rewrite Hmove. cbn [default truthy].
  rewrite (delete_id kw "moveIntfFn") by done.
  unfold mbind at 1. unfold M_bind at 1.
  unfold mbind at 1. unfold M_bind at 1. unfold emit at 1.
  unfold mret at 1. unfold M_ret at 1.
  unfold mbind at 1. unfold M_bind at 1. unfold set_params at 1.
  unfold mbind at 1. unfold M_bind at 1. unfold get_self at 1, put_self at 1.
  cbn [self world trace node name link mac ip prefixLen params].
  rewrite Hmac, Hip, HipAddr, Hup. cbn [default].
  unfold mbind at 1. unfold M_bind at 1.
  match goal with |- context [config ?m ?i ?ia ?u ?s0] =>
    destruct (config_ip_run s0 nd a p eq_refl Ha Hp)
      as (r & s' & out & ok & Hrun & _ & Htr & Hself);
    rewrite (Hrun : config m i ia u s0 = _)
  end.
  unfold mret, M_ret. cbn [self trace with_address node name link mac params]
    in Htr, Hself.
  rewrite Hself. eexists. split; [reflexivity|].
  rewrite Htr, <- app_assoc. done.
Qed.

(** X13. [configIface] without a port, an interface name or a class, with
    [panid] as its only keyword, on a node whose first radio is [wlan0] and
    whose first address is [a/p]: it returns; the node runs the six
    preparing commands, takes a port and a wlan port, registers the new
    interface, and sets the address twice and the link up; the handle is
    named [<node>-lowpan], belongs to the node, has address [a] and prefix
    length [p], and holds [addr] as its MAC address though no command set
    it. *)
Theorem configIface_builds_the_lowpan_handle (nd : Node)
    (intfName addr panid : PyVal) (wlan0 a p : string) (e : Env) :
  truthy intfName = false →
  nd_wlan nd !! 0%nat = Some wlan0 →
  nd_ip nd !! 0%nat = Some (a +:+ String "/" p) →
  contains_char "/" a = false → contains_char "/" p = false →
  let nm := VStr (nd_name nd +:+ "-lowpan") in
  let ipstr := VStr (a +:+ String "/" p) in
  let flush := Cmd (nd_name nd) [Lit "ip addr flush "; Val nm] in
  let add := Cmd (nd_name nd)
               [Lit "ip -6 addr add "; Val ipstr; Lit "dev"; Val nm] in
  ∃ i w' port,
    configIface nd VNone intfName addr None {["panid" := panid]} e
    = (Return (i, "6LoWPAN"),
       (w', (e.2 ++ prepare nd wlan0 panid
             ++ [NewPort (nd_name nd); NewWlanPort (nd_name nd);
                 AddIntf (nd_name nd) nm port VNone;
                 flush; add; flush; add;
                 Cmd (nd_name nd) [Lit "ip link set"; Val nm; Lit "up"]])%list))
    ∧ name i = nm ∧ node i = Some nd ∧ mac i = addr
    ∧ ip i = VStr a ∧ prefixLen i = VStr p.
Proof.
  intros Hname Hwlan Hip Ha Hp nm ipstr flush add.
  unfold configIface, node_cmd. simpl. rewrite Hwlan, Hname, Hip.
  simplify_map_eq. simpl.
  unfold IntfSixLoWPAN_cls. simplify_map_eq.
  assert (nd_name nd +:+ "-lowpan" ≠ "lo") as Hlo.
  { intros E. apply (f_equal String.length) in E.
    rewrite length_app_string in E. simpl in E. lia. }
  match goal with
  |- context [IntfSixLoWPAN ?n0 ?o0 ?port ?lnk ?ad ?kw ?w ?tr] =>
    destruct (construct_with_ip (nd_name nd +:+ "-lowpan") nd port lnk ad kw
                w tr a p Hlo) as (s' & Hrun & Htr);
      [by simplify_map_eq..|done|done|];
    rewrite (Hrun : IntfSixLoWPAN n0 o0 port lnk ad kw w tr = _)
  end.
  simpl. eexists _, _, _.
  split; [rewrite Htr; unfold prepare; simpl; rewrite <- !app_assoc;
          reflexivity|done].
Qed.

End Establish.

(** ** On concrete hosts *)

Lemma setIP_with_prefix_in_string_witness :
  ∃ s' : @State silent_host,
    ip (self s') = VStr "2001::1" ∧ prefixLen (self s') = VStr "64"
    ∧ IP s' = (Return (VStr "2001::1"), s').
Proof.
  destruct (@setIP_with_prefix_in_string silent_host
              (on_handle (handle "sensor1-lowpan" (Some mote))) mote
              "2001::1" "64" (VInt 48) eq_refl eq_refl eq_refl)
    as (s' & _ & Hip & Hlen & _ & Hget).
  exists s'. split; [exact Hip|]. split; [exact Hlen|exact Hget].
Defined.

Lemma setIP_with_explicit_prefix_witness :
  ∃ s' : @State silent_host,
    ip (self s') = VStr "2001::1" ∧ prefixLen (self s') = VInt 64.
Proof.
  destruct (@setIP_with_explicit_prefix silent_host
              (on_handle (handle "sensor1-lowpan" (Some mote))) mote
              "2001::1" (VInt 64) eq_refl eq_refl ltac:(discriminate))
    as (s' & _ & Hip & Hlen & _).
  exists s'. split; [exact Hip|exact Hlen].
Defined.

Lemma config_result_keys_witness :
  match (@config silent_host VNone (VStr "2001::1/64") VNone (VBool true)
           (on_handle (handle "sensor1-lowpan" (Some mote)))).1 with
  | Return r => is_Some (r !! "up") ∧ ¬ is_Some (r !! "mac")
  | Raise _ => False
  end.
Proof.
  destruct (@config silent_host VNone (VStr "2001::1/64") VNone (VBool true)
              (on_handle (handle "sensor1-lowpan" (Some mote))))
    as [[r|x] s'] eqn:E; simpl.
  - pose proof (@config_result_keys silent_host _ _ _ _ _ _ _ E) as Hk. split.
    + apply Hk. right. right. left. split; [reflexivity|discriminate].
    + intros Hm. apply Hk in Hm.
      destruct Hm as [Hm|[[_ Hm]|[[Hm _]|[Hm _]]]];
        [discriminate Hm|exact (Hm eq_refl)|discriminate Hm|discriminate Hm].
  - vm_compute in E. discriminate E.
Defined.

Lemma config_sets_ip_twice_witness :
  ∃ r (s' : @State silent_host),
    config VNone (VStr "2001::1/64") VNone (VBool true)
      (on_handle (handle "sensor1-lowpan" (Some mote))) = (Return r, s')
    ∧ length (trace s') = 5%nat ∧ ip (self s') = VStr "2001::1".
Proof.
  destruct (@config_sets_ip_twice silent_host
              (on_handle (handle "sensor1-lowpan" (Some mote))) mote
              "2001::1" "64" eq_refl eq_refl eq_refl)
    as (r & s' & out & ok & Hrun & _ & Htr & Hip & _).
  exists r, s'. split; [exact Hrun|]. split; [|exact Hip].
  rewrite Htr. reflexivity.
Defined.

Lemma isUp_query_looks_for_UP_witness :
  ∃ s',
    @isUp listing_host (VBool false)
      (@Build_State listing_host (handle "sensor1-lowpan" (Some mote)) () [])
    = (Return (VBool true), s').
Proof.
  destruct (@isUp_query_looks_for_UP listing_host
              (@Build_State listing_host (handle "sensor1-lowpan" (Some mote))
                 () [])
              mote (VBool false) eq_refl eq_refl)
    as (s' & b & Hrun & Hb & _).
  exists s'. rewrite Hrun. do 3 f_equal. apply Hb.
  exists "2: sensor1-lowpan: <BROADCAST,",
    "> mtu 1280 link/ether 02:00:00:00:01:00 inet6 2001::1/64".
  reflexivity.
Defined.

Lemma rename_moves_the_name_witness :
  ∃ s' : @State silent_host,
    name (self s') = VStr "lowpan9" ∧ length (trace s') = 3%nat.
Proof.
  destruct (@rename_moves_the_name silent_host
              (on_handle (handle "sensor1-lowpan" (Some mote))) mote
              (VStr "lowpan9") eq_refl)
    as (s' & _ & Hname & Htr & _).
  exists s'. split; [exact Hname|]. rewrite Htr. reflexivity.
Defined.

Lemma status_is_a_substring_test_witness :
  ∃ s',
    @status listing_host
      (@Build_State listing_host (handle "lowpan" (Some mote)) () [])
    = (Return (VStr "OK"), s').
Proof.
  destruct (@status_is_a_substring_test listing_host
              (@Build_State listing_host (handle "lowpan" (Some mote)) () [])
              mote "lowpan" eq_refl eq_refl)
    as (s' & answer & Hrun & _ & Hok & _).
  exists s'. rewrite Hrun. do 3 f_equal. apply Hok.
  exists "2: sensor1-",
    ": <BROADCAST,UP> mtu 1280 link/ether 02:00:00:00:01:00 inet6 2001::1/64".
  reflexivity.
Defined.

Lemma updateIP_needs_a_dotted_quad_witness :
  ∃ s',
    @updateIP listing_host
      (@Build_State listing_host (handle "sensor1-lowpan" (Some mote)) () [])
    = (Return VNone, s').
Proof.
  destruct (@updateIP_needs_a_dotted_quad listing_host
              (@Build_State listing_host (handle "sensor1-lowpan" (Some mote))
                 () [])
              mote eq_refl eq_refl)
    as (s' & Hrun & _).
  exists s'. exact Hrun.
Defined.

Lemma updateMAC_result_shape_witness :
  ∃ s' v,
    @updateMAC listing_host
      (@Build_State listing_host (handle "sensor1-lowpan" (Some mote)) () [])
    = (Return v, s')
    ∧ mac (self s') = v.
Proof.
  destruct (@updateMAC_result_shape listing_host
              (@Build_State listing_host (handle "sensor1-lowpan" (Some mote))
                 () [])
              mote eq_refl)
    as (s' & v & Hrun & Hmac & _).
  exists s', v. split; [exact Hrun|exact Hmac].
Defined.

Lemma configIface_mac_keyword_TypeError_witness :
  (@configIface silent_host mote VNone VNone VNone None
     {["panid" := VStr "0xbeef"; "mac" := VStr "02:00:00:00:01:00"]}
     ((), [])).1
  = Raise TypeError.
Proof.
  destruct (@configIface_mac_keyword_TypeError silent_host mote VNone VNone
              VNone (VStr "0xbeef") "sensor1-wpan0" "2001::1/64"
              {["panid" := VStr "0xbeef"; "mac" := VStr "02:00:00:00:01:00"]}
              ((), []))
    as (w' & evs & Hrun & _);
    [reflexivity|reflexivity|reflexivity|vm_compute; reflexivity
    |eexists; vm_compute; reflexivity|].
  rewrite Hrun. reflexivity.
Defined.

Lemma configIface_builds_the_lowpan_handle_witness :
  ∃ i e',
    @configIface silent_host mote VNone VNone (VStr "02:00:00:00:01:00") None
      {["panid" := VStr "0xbeef"]} ((), [])
    = (Return (i, "6LoWPAN"), e')
    ∧ name i = VStr "sensor1-lowpan" ∧ mac i = VStr "02:00:00:00:01:00"
    ∧ ip i = VStr "2001::1" ∧ prefixLen i = VStr "64".
Proof.
  destruct (@configIface_builds_the_lowpan_handle silent_host mote VNone
              (VStr "02:00:00:00:01:00") (VStr "0xbeef") "sensor1-wpan0"
              "2001::1" "64" ((), []) eq_refl eq_refl eq_refl eq_refl eq_refl)
    as (i & w' & port & Hrun & Hname & _ & Hmac & Hip & Hlen).
  exists i. eexists. split; [exact Hrun|].
  split; [exact Hname|]. split; [exact Hmac|]. split; [exact Hip|exact Hlen].
Defined.

End LinkFacts.

(** * More on the device allocator *)

Module WifiModuleFacts.
Import WifiModule.
Import PyProps.

Set Warnings "-clear-no-such-hyp".

(** ** What every run of [assign_iface] keeps *)

Section Runs.
Context `{Host}.

(** A relation between states that every pass through a slot keeps is kept
    by the whole run. *)
Lemma run_keeps (R : State → State → Prop) :
  (∀ s, R s s) → (∀ s1 s2 s3, R s1 s2 → R s2 s3 → R s1 s3) →
  (∀ phys wlan nd s, R s (assign_slot phys wlan (nd, s)).2.2) →
  ∀ phys nodes s, R s (assign_nodes phys nodes s).2.2.
Proof.
  intros Hrefl Htrans Hslot phys.
  assert (∀ slots nd s, R s (for_each (assign_slot phys) slots (nd, s)).2.2)
    as Hfor.
  { induction slots as [|wlan slots IH]; intros nd s; cbn [for_each].
    - apply Hrefl.
    - pose proof (Hslot phys wlan nd s) as Hs.
      destruct (assign_slot phys wlan (nd, s)) as [[[]|e] [nd1 s1]];
        cbn [snd] in *; [|done].
      eapply Htrans; [exact Hs|apply IH]. }
  induction nodes as [|nd nodes IH]; intros s; cbn [assign_nodes].
  - apply Hrefl.
  - assert (R s (assign_node phys nd s).2.2) as Hnode.
    { unfold assign_node. destruct (isolated nd); [apply Hfor|apply Hrefl]. }
    destruct (assign_node phys nd s) as [[[]|e] [nd1 s1]];
      cbn [snd] in *; [|done].
    specialize (IH s1).
    destruct (assign_nodes phys nodes s1) as [r [rest1 s2]]; cbn [snd] in *.
    by eapply Htrans.
Qed.

Lemma paired_run phys nodes s : paired s (assign_nodes phys nodes s).2.2.
Proof.
  apply run_keeps.
  - intros s0. exists []. by rewrite app_nil_r.
  - intros s1 s2 s3 (e1 & T1 & P1) (e2 & T2 & P2). exists (e1 ++ e2).
    split; [by rewrite T2, T1, app_assoc|].
    unfold assigned_devices, renames, pops in *.
    by rewrite !omap_app, fmap_app, P1, P2.
  - intros phys' wlan nd s0. unfold assign_slot.
    repeat case_match; simpl;
      try (exists []; by rewrite app_nil_r);
      (eexists; split; [simpl; rewrite <- ?app_assoc; reflexivity|]); done.
Qed.

(** X14. In every run of [assign_iface], however it ends and whatever
    [phys] is: the pool it started with is the devices it popped, in order,
    followed by the pool it ends with; the devices it renamed are exactly
    the devices it popped, in that order, so no device is renamed and left
    in the pool, and none is popped without being renamed; and the prefix
    and the unsorted interface list of the class are as they were. *)
Theorem pool_only_loses_its_head (nodes : list Node) (phys : PhysArg)
    (c : Registry) (w : World) :
  let s' := (assign_iface nodes phys c w).2.2 in
  wlan_list c = pops (trace s') ++ wlan_list (cls s')
  ∧ assigned_devices (trace s') = pops (trace s')
  ∧ prefix (cls s') = prefix c ∧ wlans (cls s') = wlans c.
Proof.
  intros s'.
  set (s0 := {| cls := c; world := w; trace := [] |}).
  assert (s' = (assign_nodes phys nodes s0).2.2) as ->.
  { unfold s', assign_iface. fold s0.
    by destruct (assign_nodes phys nodes s0) as [[[]|e] r]. }
  split; [|split].
  - destruct (WifiModuleProps.assign_nodes_inv phys nodes s0)
      as (evs & Htr & Hp & _). simpl in Htr. by subst evs.
  - destruct (paired_run phys nodes s0) as (evs & Htr & Hp).
    simpl in Htr. by subst evs.
  - apply (run_keeps (λ s1 s2, prefix (cls s2) = prefix (cls s1)
                               ∧ wlans (cls s2) = wlans (cls s1))).
    + done.
    + intros s1 s2 s3 [-> ->] [-> ->]. done.
    + intros phys' wlan nd s1. unfold assign_slot.
      repeat case_match; simpl; done.
Qed.

Lemma assign_slot_same phys wlan nd s :
  let nd' := (assign_slot phys wlan (nd, s)).2.1 in
  same_but_ids_and_ifb nd nd' ∧ nd_ifb nd' = nd_ifb nd.
Proof.
  unfold assign_slot, same_but_ids_and_ifb.
  repeat case_match; simpl; rewrite ?length_insert; done.
Qed.

Lemma for_each_same phys slots nd s :
  let nd' := (for_each (assign_slot phys) slots (nd, s)).2.1 in
  same_but_ids_and_ifb nd nd' ∧ nd_ifb nd' = nd_ifb nd.
Proof.
  revert nd s. induction slots as [|wlan slots IH]; intros nd s;
    cbn [for_each].
  - by unfold same_but_ids_and_ifb.
  - pose proof (assign_slot_same phys wlan nd s) as Hslot.
    destruct (assign_slot phys wlan (nd, s)) as [[[]|e] [nd1 s1]];
      cbn [fst snd] in *; [|done].
    pose proof (IH nd1 s1) as Hrest. cbn zeta in *.
    unfold same_but_ids_and_ifb in *.
    destruct Hslot as ((? & ? & ? & ? & ? & ? & ?) & ?).
    destruct Hrest as ((? & ? & ? & ? & ? & ? & ?) & ?).
    repeat split; congruence.
Qed.

(** X15. One pass through the body of the node loop changes, on the node,
    the list [phyID], which keeps its length, and the list [ifb], and
    nothing else; a node that passes the guard comes out with an empty
    [ifb], however the pass ends; on a node that does not, the pass returns
    and leaves the node, the class, the host and the log as they were. *)
Theorem assign_node_touches_ids_and_ifb (phys : PhysArg) (nd : Node)
    (s : State) :
  let nd' := (assign_node phys nd s).2.1 in
  same_but_ids_and_ifb nd nd'
  ∧ (isolated nd = true → nd_ifb nd' = [])
  ∧ (isolated nd = false → assign_node phys nd s = (Return (), (nd, s))).
Proof.
  unfold assign_node. destruct (isolated nd) eqn:E.
  - destruct (for_each_same phys (seq 0 (length (nd_wlan nd)))
                (set_ifb nd []) s) as [Hsame Hifb].
    split; [exact Hsame|]. split; [|done]. intros _. by rewrite Hifb.
  - by unfold same_but_ids_and_ifb.
Qed.

(** X16. A run of [assign_iface] over nodes none of which passes the guard
    of the loop returns and has done nothing: the class, the host and the
    nodes are as they were and the log is empty, whatever the pool, [phys]
    and the host are. *)
Theorem unisolated_nodes_get_nothing (nodes : list Node) (phys : PhysArg)
    (c : Registry) (w : World) :
  Forall (λ nd, isolated nd = false) nodes →
  assign_iface nodes phys c w
  = (Finished, (nodes, {| cls := c; world := w; trace := [] |})).
Proof.
  intros Hall. unfold assign_iface.
  generalize {| cls := c; world := w; trace := [] |}. intros s.
  assert (assign_nodes phys nodes s = (Return (), (nodes, s))) as ->; [|done].
  induction Hall as [|nd nodes Hnd Hall IH]; cbn [assign_nodes]; [done|].
  unfold assign_node. by rewrite Hnd, IH.
Qed.

(** *** Where a run stops *)

(** No call of [getPhy] returns. *)
Lemma getPhy_raises w dev :
  getPhy w dev = Raise match iwpan_phy_of w dev with
                       | Some _ => TypeError
                       | None => CalledProcessError
                       end.
Proof. unfold getPhy. by destruct (iwpan_phy_of w dev). Qed.

(** A pass through a slot raises, after the store when the slot has an
    entry in [node.phyID], and before any command. *)
Lemma assign_slot_raises phys wlan nd s :
  ∃ e nd' s',
    assign_slot phys wlan (nd, s) = (Raise e, (nd', s'))
    ∧ world s' = world s ∧ wlan_list (cls s') = wlan_list (cls s)
    ∧ wlans (cls s') = wlans (cls s) ∧ prefix (cls s') = prefix (cls s)
    ∧ if bool_decide (wlan < length (nd_phyID nd))%nat
      then trace s' = trace s ++ [StorePhyID (nd_name nd) wlan (phyID (cls s))]
           ∧ phyID (cls s') = phyID (cls s) + 1
      else trace s' = trace s ∧ phyID (cls s') = phyID (cls s).
Proof.
  unfold assign_slot. destruct (bool_decide _); [|by eexists _, _, _].
  destruct (phys_now phys _) as [|phys0 rest]; [by eexists _, _, _|].
  rewrite getPhy_raises. by eexists _, _, _.
Qed.

(** The loop over the nodes breaks off at the first slot it comes to. *)
Lemma nodes_stop phys nodes : ∀ s name slot newname rest,
  served_slots nodes = (name, slot, newname) :: rest →
  ∃ e nodes' s',
    assign_nodes phys nodes s = (Raise e, (nodes', s'))
    ∧ slot = 0%nat
    ∧ world s' = world s ∧ wlan_list (cls s') = wlan_list (cls s)
    ∧ wlans (cls s') = wlans (cls s) ∧ prefix (cls s') = prefix (cls s)
    ∧ ((trace s' = trace s ++ [StorePhyID name 0 (phyID (cls s))]
        ∧ phyID (cls s') = phyID (cls s) + 1)
       ∨ (trace s' = trace s ∧ phyID (cls s') = phyID (cls s))).
Proof.
  induction nodes as [|nd nodes IH]; intros s name slot newname rest Hslots;
    [done|].
  unfold served_slots in Hslots. rewrite bind_cons in Hslots.
  fold (served_slots nodes) in Hslots.
  cbn [assign_nodes]. unfold assign_node, node_slots in *.
  destruct (isolated nd) eqn:Eiso.
  - unfold requested in Hslots.
    destruct (nd_wlan nd) as [|first others] eqn:Ewlan.
    + simpl in Hslots. simpl.
      destruct (IH s _ _ _ _ Hslots) as (e & nodes' & s' & -> & Hrest).
      by eexists _, _, _.
    + simpl in Hslots. injection Hslots as <- <- <- _.
      cbn [length seq for_each].
      destruct (assign_slot_raises phys 0 (set_ifb nd []) s)
        as (e & nd' & s' & -> & Hw & Hpool & Hwl & Hpre & Hstore).
      eexists _, _, _. split; [reflexivity|]. split; [done|].
      split; [done|]. split; [done|]. split; [done|]. split; [done|].
      simpl in Hstore. destruct (bool_decide _); [by left|by right].
  - simpl in Hslots.
    destruct (IH s _ _ _ _ Hslots) as (e & nodes' & s' & -> & Hrest).
    by eexists _, _, _.
Qed.

(** X17. A run of [assign_iface] over nodes of which one that passes the
    guard has a radio slot ends in [exit(1)], at the first such slot,
    whatever the pool, [phys] and the host are: no call of [getPhy]
    returns.  By then nothing was popped off the pool, no command was run
    and the host is as it was; the log holds the store of the counter's
    value for that slot and the counter is one further, or, when
    [node.phyID] has no entry for the slot, the log is empty and the
    counter is as it was. *)
Theorem assign_iface_stops_at_first_slot (nodes : list Node) (phys : PhysArg)
    (c : Registry) (w : World) (name newname : string) (slot : nat)
    (rest : list (string * nat * string)) :
  served_slots nodes = (name, slot, newname) :: rest →
  ∃ nodes' s',
    assign_iface nodes phys c w = (Exit 1, (nodes', s'))
    ∧ slot = 0%nat
    ∧ world s' = w ∧ wlan_list (cls s') = wlan_list c
    ∧ wlans (cls s') = wlans c ∧ prefix (cls s') = prefix c
    ∧ pops (trace s') = [] ∧ renames (trace s') = []
    ∧ ((trace s' = [StorePhyID name 0 (phyID c)]
        ∧ phyID (cls s') = phyID c + 1)
       ∨ (trace s' = [] ∧ phyID (cls s') = phyID c)).
Proof.
  intros Hslots.
  destruct (nodes_stop phys nodes {| cls := c; world := w; trace := [] |}
              _ _ _ _ Hslots)
    as (e & nodes' & s' & Hrun & Hslot & Hw & Hpool & Hwl & Hpre & Hlog).
  unfold assign_iface. rewrite Hrun. exists nodes', s'. simpl in *.
  split; [done|]. split; [done|]. split; [done|]. split; [done|].
  split; [done|]. split; [done|].
  destruct Hlog as [[-> ->]|[-> ->]]; (split; [done|]); (split; [done|]);
    [by left|by right].
Qed.

End Runs.

(** ** Reading the listings *)

Section Listings.
Context `{Host}.

(** X18. [getPhy] never returns: when its command succeeds, whatever it
    printed, the split of the undecoded output raises [TypeError]; when the
    command fails, [check_output] raises. *)
Theorem getPhy_never_returns (w : World) (wlan : string) :
  (∀ out, iwpan_phy_of w wlan = Some out → getPhy w wlan = Raise TypeError)
  ∧ (iwpan_phy_of w wlan = None → getPhy w wlan = Raise CalledProcessError)
  ∧ ∀ phy, getPhy w wlan ≠ Return phy.
Proof.
  rewrite getPhy_raises. split; [by intros out ->|]. split; [by intros ->|].
  done.
Qed.

(** [__create_hwsim_mgmt_devices] on a listing of whole lines. *)
Lemma create_lines (s : State) (names : list string) (fuel : nat) :
  hwsim_groups (world s) = Some (lines names) →
  Forall (λ x, contains_char newline x = false) names →
  (S (length names) < fuel)%nat →
  ∃ num,
    create_hwsim_mgmt_devices fuel s
    = Some (Return (),
            with_cls {| wlans := wlans (cls s); wlan_list := wlan_list (cls s);
                        prefix := prefix_of num; phyID := phyID (cls s) |} s)
    ∧ (∀ name, name ∈ names → String.prefix (prefix_of num) name = false)
    ∧ (∀ m, (m < num)%nat →
         ∃ name, name ∈ names ∧ String.prefix (prefix_of m) name = true).
Proof.
  intros Hout Hnames Hfuel. unfold create_hwsim_mgmt_devices. rewrite Hout.
  cbn [check_output and_then decode split_str].
  assert (split newline (lines names) = names ++ [""]) as ->.
  { rewrite (append_empty_r (lines names)). by apply split_lines. }
  destruct (WifiModuleProps.prefix_loop_first_free (names ++ [""]) fuel)
    as (num & -> & Hfree & Hmin).
  { rewrite length_app. simpl. lia. }
  exists num. split; [reflexivity|]. split.
  - intros name Hin. apply Hfree. apply elem_of_app. by left.
  - intros m Hm. destruct (Hmin m Hm) as (name & Hin & Hpre).
    exists name. split; [|done].
    apply elem_of_app in Hin as [Hin|Hin]; [done|].
    apply list_elem_of_singleton in Hin as ->. done.
Qed.

(** [__create_hwsim_mgmt_devices] changes nothing but the prefix. *)
Lemma create_keeps (s : State) (fuel : nat) r s' :
  create_hwsim_mgmt_devices fuel s = Some (r, s') →
  (r = Return () ∨ r = Raise CalledProcessError)
  ∧ wlans (cls s') = wlans (cls s) ∧ wlan_list (cls s') = wlan_list (cls s)
  ∧ phyID (cls s') = phyID (cls s)
  ∧ world s' = world s ∧ trace s' = trace s.
Proof.
  unfold create_hwsim_mgmt_devices.
  destruct (hwsim_groups (world s)); cbn [check_output and_then decode
    split_str]; repeat case_match; intros; simplify_eq/=;
    (split; [by auto|done]).
Qed.

End Listings.

(** C3. For every list of existing device-group names, each on a line of
    the listing that device enumeration reads, [__create_hwsim_mgmt_devices]
    returns, once its loop has more fuel than there are lines plus two, and
    stores as the prefix of the class ["mn"], a counter padded with zeros to
    two digits, ["s"], for the smallest counter such that no listed name
    starts with that prefix: no name starts with the prefix stored, and for
    every smaller counter some name starts with that counter's prefix.  On
    the names [mn00s] and [mn01s] the prefix stored is [mn02s]. *)
Theorem naming_prefix_first_free :
  (∀ (H : Host) (s : State) (names : list string) (fuel : nat),
     hwsim_groups (world s) = Some (lines names) →
     Forall (λ x, contains_char newline x = false) names →
     (S (length names) < fuel)%nat →
     ∃ num s',
       create_hwsim_mgmt_devices fuel s = Some (Return (), s')
       ∧ prefix (cls s') = "mn" +:+ fmt_02d num +:+ "s"
       ∧ (∀ name, name ∈ names → String.prefix (prefix (cls s')) name = false)
       ∧ (∀ m, (m < num)%nat →
            ∃ name, name ∈ names
                    ∧ String.prefix ("mn" +:+ fmt_02d m +:+ "s") name = true))
  ∧ (let s := @Build_State steady_host (registry [] 0) () [] in
     hwsim_groups (world s) = Some (lines ["mn00s"; "mn01s"])
     ∧ ∃ s', create_hwsim_mgmt_devices 4 s = Some (Return (), s')
             ∧ prefix (cls s') = "mn02s").
Proof.
  split.
  - intros H s names fuel Hout Hnames Hfuel.
    destruct (create_lines s names fuel Hout Hnames Hfuel)
      as (num & -> & Hfree & Hmin).
    eexists num, _. split; [reflexivity|]. done.
  - split; [done|]. eexists. split; reflexivity.
Qed.

(** X20. A device group named with the prefix of counter [n], whatever
    follows the prefix in its name, makes the naming loop pass over the
    counter [n] and over no other counter: the prefix of [m] starts such a
    name exactly when [m] is [n]. *)
Theorem prefix_blocks_only_its_counter (n m : nat) (suffix : string) :
  String.prefix (prefix_of m) (prefix_of n +:+ suffix) = true ↔ m = n.
Proof.
  split.
  - intros Hm. eapply WifiModuleProps.prefix_of_unique; [exact Hm|].
    apply WifiModuleProps.prefix_app. by exists suffix.
  - intros ->. apply WifiModuleProps.prefix_app. by exists suffix.
Qed.

(** ** Loading the module and starting *)

Section Loading.
Context `{Kernel}.

Lemma load_module_keeps fuel n alt l r l' :
  load_module fuel n alt l = Some (r, l') →
  (r = Return () ∨ r = Raise CalledProcessError)
  ∧ same_pool (state l) (state l')
  ∧ externally_managed l' = externally_managed l
  ∧ (if externally_managed l
     then shell l' = shell l ∧ devices_created_dynamically l' = true
          ∧ world (state l') = world (state l)
     else devices_created_dynamically l' = devices_created_dynamically l
          ∧ (shell l' = shell l ++ [first_load n alt]
             ∨ shell l' = shell l ++ [first_load n alt; second_load n alt])).
Proof.
  unfold load_module, create_in, first_load, second_load, same_pool.
  destruct (externally_managed l) eqn:Em; simpl.
  - destruct (create_hwsim_mgmt_devices fuel _) as [[r0 s0]|] eqn:Ec; [|done].
    intros [= <- <-]. apply create_keeps in Ec. simpl in *. naive_solver.
  - destruct (String.eqb alt ""); simpl.
    + destruct (os_system _ _ =? 0).
      * destruct (create_hwsim_mgmt_devices fuel _) as [[r0 s0]|] eqn:Ec;
          [|done].
        intros [= <- <-]. apply create_keeps in Ec. simpl in *. naive_solver.
      * intros [= <- <-]. simpl. rewrite <- app_assoc. naive_solver.
    + destruct (os_system _ _ =? 0).
      * destruct (create_hwsim_mgmt_devices fuel _) as [[r0 s0]|] eqn:Ec;
          [|done].
        intros [= <- <-]. apply create_keeps in Ec. simpl in *. naive_solver.
      * intros [= <- <-]. simpl. rewrite <- app_assoc. naive_solver.
Qed.

(** X21. Whenever [load_module] ends, it has returned or raised what
    [check_output] raises; the pool, the unsorted interface list, the
    counter of phy ids and the log of node commands are as they were, and so
    is the flag [externally_managed].  Under external management it ran no
    load command, left the host as it was and set
    [devices_created_dynamically]; otherwise it left that flag alone and ran
    the first load command, or the first and then the second, and nothing
    else. *)
Theorem load_module_frame fuel n alt l r l' :
  load_module fuel n alt l = Some (r, l') →
  (r = Return () ∨ r = Raise CalledProcessError)
  ∧ same_pool (state l) (state l')
  ∧ externally_managed l' = externally_managed l
  ∧ (if externally_managed l
     then shell l' = shell l ∧ devices_created_dynamically l' = true
          ∧ world (state l') = world (state l)
     else devices_created_dynamically l' = devices_created_dynamically l
          ∧ (shell l' = shell l ++ [first_load n alt]
             ∨ shell l' = shell l ++ [first_load n alt; second_load n alt])).
Proof. apply load_module_keeps. Qed.

(** X22. [load_module] without external management, when the first load
    command exits with 0 and the listing of the device groups taken after
    it is a list of whole lines: with more fuel than there are lines plus
    two, it returns; the first load is the only command it ran; and the
    prefix of the class is that of the smallest counter whose prefix starts
    none of the listed names. *)
Theorem load_module_names_after_loading fuel n alt l names :
  externally_managed l = false →
  os_system (world (state l)) (first_load n alt) = 0 →
  hwsim_groups (after (world (state l)) (first_load n alt))
  = Some (lines names) →
  Forall (λ x, contains_char newline x = false) names →
  (S (length names) < fuel)%nat →
  ∃ num l',
    load_module fuel n alt l = Some (Return (), l')
    ∧ shell l' = shell l ++ [first_load n alt]
    ∧ prefix (cls (state l')) = prefix_of num
    ∧ (∀ name, name ∈ names → String.prefix (prefix_of num) name = false)
    ∧ (∀ m, (m < num)%nat →
         ∃ name, name ∈ names ∧ String.prefix (prefix_of m) name = true).
Proof.
  intros Hm Hok Hout Hnames Hfuel.
  unfold load_module, create_in. rewrite Hm. simpl.
  unfold first_load in *.
  destruct (String.eqb alt ""); simpl; rewrite Hok; simpl.
  - edestruct (create_lines) as (num & -> & Hfree & Hmin);
      [exact Hout|done|done|].
    eexists num, _. split; [reflexivity|]. done.
  - edestruct (create_lines) as (num & -> & Hfree & Hmin);
      [exact Hout|done|done|].
    eexists num, _. split; [reflexivity|]. done.
Qed.

(** X23. [load_module] without external management, when the first load
    command exits with another status than 0: it returns, with any fuel;
    it ran the first load and then the second, whose status it does not
    look at; the second asks for as many radios as the call, and for one
    when the call asks for none; and the class is as it was, no prefix
    having been derived. *)
Theorem load_module_retries_once fuel n alt l :
  externally_managed l = false →
  os_system (world (state l)) (first_load n alt) ≠ 0 →
  ∃ l',
    load_module fuel n alt l = Some (Return (), l')
    ∧ shell l' = shell l ++ [first_load n alt; second_load n alt]
    ∧ cls (state l') = cls (state l)
    ∧ match second_load n alt with
      | Modprobe k | Insmod _ k => k ≠ 0 ∧ (n ≠ 0 → k = n)
      | PkillHostapd => False
      end.
Proof.
  intros Hm Hfail. unfold load_module, first_load, second_load in *.
  rewrite Hm. simpl.
  destruct (String.eqb alt ""); simpl;
    (destruct (os_system _ _ =? 0) eqn:E; [apply Z.eqb_eq in E; done|]);
    (eexists; split; [reflexivity|]; simpl; rewrite <- app_assoc;
     split; [done|]; split; [done|]);
    destruct (n =? 0) eqn:En; [apply Z.eqb_eq in En|apply Z.eqb_neq in En|
                              apply Z.eqb_eq in En|apply Z.eqb_neq in En];
    split; done.
Qed.

(** The [try] block that opens [start] does nothing: the comparison of the
    count with 2 raises, and what is raised is dropped. *)
Lemma kill_hostapd_skips l : kill_hostapd l = l.
Proof.
  unfold kill_hostapd. by destruct (hostapd_count (world (state l))).
Qed.

(** [start] once [load_module] has returned. *)
Lemma start_loaded fuel nodes n alt managed c w l2 :
  load_module fuel n alt (kill_hostapd (fresh managed c w))
  = Some (Return (), l2) →
  start fuel nodes n alt managed c w
  = match get_virtual_wlan (state l2) with
    | (Raise e, s3) => Some (Failed e, with_state s3 l2)
    | (Return phys, s3) =>
        match assign_nodes PhysPool nodes s3 with
        | (Return _, (nodes', s4)) =>
            Some (Assigned Finished nodes', with_state s4 l2)
        | (Raise _, (nodes', s4)) =>
            Some (Assigned (Exit 1) nodes', with_state s4 l2)
        end
    end
  ∧ trace (state l2) = [] ∧ phyID (cls (state l2)) = phyID c
  ∧ wlan_list (cls (state l2)) = wlan_list c.
Proof.
  intros Hload. unfold start. rewrite Hload. split; [done|].
  apply load_module_keeps in Hload as (_ & (_ & Hpool & Hid & Htr) & _).
  rewrite Htr, Hid, Hpool. by rewrite kill_hostapd_skips.
Qed.

(** X24. [start], once [load_module] has returned, on a host on which the
    listing of the interfaces then succeeds, whatever it prints: the split
    of the undecoded listing raises [TypeError], which comes out of
    [start], so [assign_iface] is not reached; no node command ran; the
    unsorted interface list of the class is empty, and its pool and its
    counter are the ones from before the call. *)
Theorem start_never_assigns fuel nodes n alt managed c w l2 out :
  load_module fuel n alt (kill_hostapd (fresh managed c w))
  = Some (Return (), l2) →
  iwpan_interfaces (world (state l2)) = Some out →
  ∃ l3,
    start fuel nodes n alt managed c w = Some (Failed TypeError, l3)
    ∧ trace (state l3) = []
    ∧ wlans (cls (state l3)) = []
    ∧ wlan_list (cls (state l3)) = wlan_list c
    ∧ phyID (cls (state l3)) = phyID c
    ∧ shell l3 = shell l2.
Proof.
  intros Hload Hout.
  destruct (start_loaded fuel nodes n alt managed c w l2 Hload)
    as (-> & Htr0 & Hid & Hpool).
  unfold get_virtual_wlan. rewrite Hout. eexists. split; [reflexivity|].
  simpl. by rewrite Htr0, Hpool, Hid.
Qed.

(** X25. [start] never runs [pkill]: in the [try] block that opens it the
    comparison of the undecoded process count with 2 raises, and what is
    raised is dropped, as is what [check_output] raises when the count
    fails; so the first command [start] hands to [os.system], if any, is
    the first load of [load_module]. *)
Theorem start_never_kills_hostapd fuel nodes n alt managed c w r l :
  start fuel nodes n alt managed c w = Some (r, l) →
  (PkillHostapd ∉ shell l)
  ∧ (shell l = []
     ∨ shell l = [first_load n alt]
     ∨ shell l = [first_load n alt; second_load n alt]).
Proof.
  unfold start. rewrite kill_hostapd_skips.
  destruct (load_module fuel n alt (fresh managed c w)) as [[r1 l1]|] eqn:E;
    [|done].
  intros Hstart.
  assert (shell l1 = []
          ∨ shell l1 = [first_load n alt]
          ∨ shell l1 = [first_load n alt; second_load n alt]) as Hl1.
  { apply load_module_keeps in E as (_ & _ & _ & Hsh). simpl in Hsh.
    destruct managed; naive_solver. }
  assert (shell l = shell l1) as ->.
  { revert Hstart. destruct r1 as [[]|e]; [|by intros [= <- <-]].
    destruct (get_virtual_wlan (state l1)) as [[phys|e] s3];
      [|by intros [= <- <-]].
    destruct (assign_nodes PhysPool nodes s3) as [[[]|e] [nodes' s4]];
      by intros [= <- <-]. }
  split; [|done].
  unfold first_load, second_load in Hl1.
  destruct Hl1 as [-> | [-> | ->]]; repeat case_match; set_solver.
Qed.

(** X26. [start], once [load_module] has returned, on a host on which the
    listing of the interfaces then fails: what [check_output] raises comes
    out of [start], which has no handler around that call, so the run does
    not end in [exit(1)]; no node command ran; the unsorted interface list
    of the class is empty and its pool is the one from before the call. *)
Theorem start_listing_failure_escapes fuel nodes n alt managed c w l2 :
  load_module fuel n alt (kill_hostapd (fresh managed c w))
  = Some (Return (), l2) →
  iwpan_interfaces (world (state l2)) = None →
  ∃ l3,
    start fuel nodes n alt managed c w = Some (Failed CalledProcessError, l3)
    ∧ trace (state l3) = []
    ∧ wlans (cls (state l3)) = []
    ∧ wlan_list (cls (state l3)) = wlan_list c.
Proof.
  intros Hload Hout.
  destruct (start_loaded fuel nodes n alt managed c w l2 Hload)
    as (-> & Htr0 & _ & Hpool).
  unfold get_virtual_wlan. rewrite Hout. eexists. split; [reflexivity|].
  simpl. by rewrite Htr0, Hpool.
Qed.

End Loading.

(** ** On concrete hosts *)

Lemma unisolated_nodes_get_nothing_witness :
  @assign_iface steady_host [sensor "ap1" OtherNode ["ap1-wpan0"]] PhysPool
    (registry ["wpan0"] 0) ()
  = (Finished,
     ([sensor "ap1" OtherNode ["ap1-wpan0"]],
      @Build_State steady_host (registry ["wpan0"] 0) () [])).
Proof.
  apply (@unisolated_nodes_get_nothing steady_host
           [sensor "ap1" OtherNode ["ap1-wpan0"]] PhysPool
           (registry ["wpan0"] 0) ()).
  repeat constructor.
Defined.

Lemma assign_node_touches_ids_and_ifb_witness :
  nd_ifb (@assign_node steady_host PhysPool
            (sensor "A" Station ["A-wpan0"])
            (@Build_State steady_host (registry ["wpan0"] 0) () [])).2.1
  = [].
Proof.
  apply (proj1 (proj2 (@assign_node_touches_ids_and_ifb steady_host PhysPool
                         (sensor "A" Station ["A-wpan0"])
                         (@Build_State steady_host (registry ["wpan0"] 0) ()
                            [])))).
  reflexivity.
Defined.

Lemma assign_iface_stops_at_first_slot_witness :
  ∃ nodes' s',
    @assign_iface steady_host
      [sensor "A" Station ["A-wpan0"]; sensor "B" Station ["B-wpan0"]]
      PhysPool (registry ["wpan0"; "wpan1"; "wpan2"] 0) ()
    = (Exit 1, (nodes', s'))
    ∧ wlan_list (cls s') = ["wpan0"; "wpan1"; "wpan2"]
    ∧ pops (trace s') = [].
Proof.
  destruct (@assign_iface_stops_at_first_slot steady_host
              [sensor "A" Station ["A-wpan0"]; sensor "B" Station ["B-wpan0"]]
              PhysPool (registry ["wpan0"; "wpan1"; "wpan2"] 0) ()
              "A" "A-wpan0" 0%nat [("B", 0%nat, "B-wpan0")] eq_refl)
    as (nodes' & s' & Hrun & _ & _ & Hpool & _ & _ & Hpops & _).
  exists nodes', s'. split; [exact Hrun|]. split; [exact Hpool|exact Hpops].
Defined.

Lemma getPhy_never_returns_witness :
  @getPhy steady_host () "wpan0" = Raise TypeError.
Proof.
  apply (proj1 (@getPhy_never_returns steady_host () "wpan0") (lines ["0"])).
  reflexivity.
Defined.

Lemma naming_prefix_first_free_witness :
  ∃ num s',
    @create_hwsim_mgmt_devices steady_host 4
      (@Build_State steady_host (registry [] 0) () [])
    = Some (Return (), s')
    ∧ prefix (cls s') = "mn" +:+ fmt_02d num +:+ "s"
    ∧ (∀ name, name ∈ ["mn00s"; "mn01s"] →
         String.prefix (prefix (cls s')) name = false).
Proof.
  destruct (proj1 naming_prefix_first_free steady_host
              (@Build_State steady_host (registry [] 0) () [])
              ["mn00s"; "mn01s"] 4%nat)
    as (num & s' & Hrun & Hprefix & Hfree & _).
  - reflexivity.
  - repeat constructor.
  - simpl. lia.
  - exists num, s'. split; [exact Hrun|]. split; [exact Hprefix|exact Hfree].
Defined.

Lemma load_module_frame_witness :
  match @load_module steady_host steady_kernel 5 2 ""
          (@fresh steady_host true (registry ["wpan0"] 3) ()) with
  | Some (_, l') =>
      shell l' = [] ∧ devices_created_dynamically l' = true
      ∧ wlan_list (cls (state l')) = ["wpan0"]
  | None => False
  end.
Proof.
  destruct (@load_module steady_host steady_kernel 5 2 ""
              (@fresh steady_host true (registry ["wpan0"] 3) ()))
    as [[r l']|] eqn:E.
  - destruct (@load_module_frame steady_host steady_kernel _ _ _ _ _ _ E)
      as (_ & (_ & Hpool & _) & _ & Hshell & Hflag & _).
    split; [exact Hshell|]. split; [exact Hflag|exact Hpool].
  - vm_compute in E. discriminate E.
Defined.

Lemma load_module_names_after_loading_witness :
  ∃ num l',
    @load_module steady_host steady_kernel 5 2 ""
      (@fresh steady_host false (registry [] 0) ())
    = Some (Return (), l')
    ∧ shell l' = [Modprobe 2]
    ∧ prefix (cls (state l')) = prefix_of num.
Proof.
  destruct (@load_module_names_after_loading steady_host steady_kernel 5 2 ""
              (@fresh steady_host false (registry [] 0) ()) ["mn00s"; "mn01s"])
    as (num & l' & Hrun & Hshell & Hprefix & _).
  - reflexivity.
  - reflexivity.
  - reflexivity.
  - repeat constructor.
  - simpl. lia.
  - exists num, l'. split; [exact Hrun|]. split; [exact Hshell|exact Hprefix].
Defined.

Lemma load_module_retries_once_witness :
  ∃ l',
    @load_module steady_host failing_kernel 0 0 ""
      (@fresh steady_host false (registry [] 0) ())
    = Some (Return (), l')
    ∧ shell l' = [Modprobe 0; Modprobe 1].
Proof.
  destruct (@load_module_retries_once steady_host failing_kernel 0 0 ""
              (@fresh steady_host false (registry [] 0) ()))
    as (l' & Hrun & Hshell & _).
  - reflexivity.
  - discriminate.
  - exists l'. split; [exact Hrun|exact Hshell].
Defined.

Lemma start_never_assigns_witness :
  ∃ l3,
    @start steady_host steady_kernel 5
      [sensor "A" Station ["A-wpan0"]; sensor "B" Station ["B-wpan0"]]
      2 "" false (registry ["stale0"] 0) ()
    = Some (Failed TypeError, l3)
    ∧ trace (state l3) = []
    ∧ wlan_list (cls (state l3)) = ["stale0"].
Proof.
  destruct (@load_module steady_host steady_kernel 5 2 ""
              (@kill_hostapd steady_host steady_kernel
                 (@fresh steady_host false (registry ["stale0"] 0) ())))
    as [[[[]|e] l2]|] eqn:E.
  - destruct (@start_never_assigns steady_host steady_kernel 5
                [sensor "A" Station ["A-wpan0"]; sensor "B" Station ["B-wpan0"]]
                2 "" false (registry ["stale0"] 0) () l2
                (lines ["wpan10"; "wpan2"; "wpan0"]) E eq_refl)
      as (l3 & Hrun & Htr & _ & Hpool & _).
    exists l3. split; [exact Hrun|]. split; [exact Htr|exact Hpool].
  - vm_compute in E. discriminate E.
  - vm_compute in E. discriminate E.
Defined.

Lemma start_never_kills_hostapd_witness :
  match @start bare_host bare_kernel 5 [sensor "A" Station ["A-wpan0"]] 1 ""
          false (registry ["stale0"] 0) () with
  | Some (_, l) => PkillHostapd ∉ shell l
  | None => False
  end.
Proof.
  destruct (@start bare_host bare_kernel 5 [sensor "A" Station ["A-wpan0"]] 1
              "" false (registry ["stale0"] 0) ()) as [[r l]|] eqn:E.
  - exact (proj1 (@start_never_kills_hostapd bare_host bare_kernel _ _ _ _ _
                    _ _ _ _ E)).
  - vm_compute in E. discriminate E.
Defined.

Lemma start_listing_failure_escapes_witness :
  ∃ l3,
    @start bare_host bare_kernel 5 [sensor "A" Station ["A-wpan0"]] 1 "" false
      (registry ["stale0"] 0) ()
    = Some (Failed CalledProcessError, l3)
    ∧ trace (state l3) = []
    ∧ wlan_list (cls (state l3)) = ["stale0"].
Proof.
  destruct (@load_module bare_host bare_kernel 5 1 ""
              (@kill_hostapd bare_host bare_kernel
                 (@fresh bare_host false (registry ["stale0"] 0) ())))
    as [[[[]|e] l2]|] eqn:E.
  - destruct (@start_listing_failure_escapes bare_host bare_kernel 5
                [sensor "A" Station ["A-wpan0"]] 1 "" false
                (registry ["stale0"] 0) () l2 E eq_refl)
      as (l3 & Hrun & Htr & _ & Hpool).
    exists l3. split; [exact Hrun|]. split; [exact Htr|exact Hpool].
  - vm_compute in E. discriminate E.
  - vm_compute in E. discriminate E.
Defined.

End WifiModuleFacts.
